(** * if-emotion-ux backend: prompt assembly, retrieval and response framing

    A shallow embedding of [backend/claude_api_server.py] (the plain server)
    and [backend/claude_api_server_rag.py] (the server with retrieval), and
    the properties of their chat-completion handlers.

    Python values are modelled as follows.
    - A [str] is a list of Unicode code points, so that [len], slicing and
      [strip] count characters as Python does.
    - Dictionaries with literal keys (the process environment, the loaded
      collections) are [gmap]s keyed by Rocq strings; JSON objects keep the
      order of their keys in an association list.
    - Python integers are [Z]; [//] on a positive divisor is [Z.div].
    - What the handlers obtain from outside (the subprocess, the clock, the
      random id, [json.dumps]) is a field of [runtime]; the vector store is
      a [Rag.store]. *)

From Stdlib Require Import ZArith NArith Ascii String List Lia.
From stdpp Require Import base option list strings gmap.

Set Warnings "-register-all".

Local Open Scope Z_scope.
Local Open Scope list_scope.

(** ** Text *)

Abbreviation str := (list N).

(** An ASCII literal of the source as a [str]. *)
Definition text (s : string) : str :=
  map N_of_ascii (list_ascii_of_string s).

Definition DQ : str := [34%N].
Definition NL : str := [10%N].

(** [len(s)] *)
Definition len (s : str) : Z := Z.of_nat (length s).

(** [s[:n]] for a literal [n >= 0] *)
Definition slice_to (n : nat) (s : str) : str := take n s.

(** [sep.join(parts)] *)
Fixpoint join (sep : str) (parts : list str) : str :=
  match parts with
  | [] => []
  | p :: rest =>
      match rest with
      | [] => p
      | _ :: _ => p ++ sep ++ join sep rest
      end
  end.

(** [c.isspace()] for one code point: CPython's [_PyUnicode_IsWhitespace]. *)
Definition isspace (c : N) : bool :=
  ((9 <=? c) && (c <=? 13) || (28 <=? c) && (c <=? 32)
   || (c =? 133) || (c =? 160) || (c =? 5760)
   || (8192 <=? c) && (c <=? 8202)
   || (c =? 8232) || (c =? 8233) || (c =? 8239) || (c =? 8287)
   || (c =? 12288))%N.

Fixpoint lstrip (s : str) : str :=
  match s with
  | [] => []
  | c :: rest => if isspace c then lstrip rest else s
  end.

Definition rstrip (s : str) : str := rev (lstrip (rev s)).

(** [s.strip()] *)
Definition strip (s : str) : str := rstrip (lstrip s).

(** [s.lower()]. Only the ASCII letters are mapped. The result is compared
    with ASCII keywords only, and the two code points outside ASCII whose
    Python lower case contains an ASCII letter (U+0130, giving [i] followed
    by U+0307, and U+212A, giving [k]) cannot complete any of the keywords
    of [humor_keywords]. *)
Definition lower (s : str) : str :=
  map (fun c => if ((65 <=? c) && (c <=? 90))%N then (c + 32)%N else c) s.

Fixpoint startswith (p s : str) : bool :=
  match p, s with
  | [], _ => true
  | _ :: _, [] => false
  | a :: p', b :: s' => (a =? b)%N && startswith p' s'
  end.

(** [kw in s] on strings: [kw] occurs in [s] as a contiguous run. *)
Fixpoint contains (kw s : str) : bool :=
  startswith kw s ||
  match s with
  | [] => false
  | _ :: s' => contains kw s'
  end.

(** Truth value of a string or of a list: non-empty. *)
Definition truthy {A} (l : list A) : bool :=
  match l with [] => false | _ :: _ => true end.

(** ** JSON values, as the handlers build them from dict literals *)

Inductive json :=
| JNone
| JBool (b : bool)
| JInt (n : Z)
| JStr (s : str)
| JList (items : list json)
| JDict (fields : list (string * json)).

Fixpoint assoc (k : string) (fields : list (string * json)) : option json :=
  match fields with
  | [] => None
  | (k', v) :: rest => if String.eqb k k' then Some v else assoc k rest
  end.

(** [j[k]] *)
Definition jfield (k : string) (j : json) : option json :=
  match j with
  | JDict fields => assoc k fields
  | _ => None
  end.

(** [j[i]] on a list *)
Definition jitem (i : nat) (j : json) : option json :=
  match j with
  | JList items => items !! i
  | _ => None
  end.

(** [json.dumps(j)] with its default arguments: [", "] and [": "] as
    separators, keys in the order of the dict, and every character outside
    the printable ASCII range escaped. *)

Fixpoint decimal (fuel : nat) (n : N) : str :=
  match fuel with
  | O => []
  | S fuel' =>
      if (n <? 10)%N then [(48 + n)%N]
      else decimal fuel' (n / 10)%N ++ [(48 + n mod 10)%N]
  end.

Definition dumps_int (z : Z) : str :=
  let n := Z.abs_N z in
  (if z <? 0 then text "-" else []) ++ decimal (S (N.to_nat (N.log2 n))) n.

Definition hex_digit (d : N) : N :=
  (if d <? 10 then 48 + d else 87 + d)%N.

(** [\uXXXX] for a code unit *)
Definition u_escape (c : N) : str :=
  [92; 117; hex_digit (c / 4096 mod 16); hex_digit (c / 256 mod 16);
   hex_digit (c / 16 mod 16); hex_digit (c mod 16)]%N.

Definition escape_char (c : N) : str :=
  (if c =? 34 then [92; 34]
   else if c =? 92 then [92; 92]
   else if c =? 10 then [92; 110]
   else if c =? 13 then [92; 114]
   else if c =? 9 then [92; 116]
   else if c =? 8 then [92; 98]
   else if c =? 12 then [92; 102]
   else if (32 <=? c) && (c <=? 126) then [c]
   else if c <? 65536 then u_escape c
   else u_escape (55296 + (c - 65536) / 1024 mod 1024)
        ++ u_escape (56320 + (c - 65536) mod 1024))%N.

Definition dumps_str (s : str) : str :=
  DQ ++ concat (map escape_char s) ++ DQ.

Fixpoint json_dumps_default (j : json) : str :=
  match j with
  | JNone => text "null"
  | JBool true => text "true"
  | JBool false => text "false"
  | JInt n => dumps_int n
  | JStr s => dumps_str s
  | JList items =>
      text "[" ++ join (text ", ") (map json_dumps_default items) ++ text "]"
  | JDict fields =>
      text "{"
      ++ join (text ", ")
           (map (fun kv =>
                   let '(k, v) := kv in
                   dumps_str (text k) ++ text ": " ++ json_dumps_default v)
                fields)
      ++ text "}"
  end.

(** ** The persona text

    The text of [SERGIO_SYSTEM_PROMPT] that the two servers share: the
    literal of [claude_api_server.py], which ends with one newline. The
    literal of [claude_api_server_rag.py] is this text, one more newline and
    the slot [{personality_context}]. *)
Definition SERGIO_PERSONA : str :=
  text "You are Sergio, a Spanish-speaking psychologist who specializes in debunking abstract spiritual language and operationalizing emotional concepts into concrete, testable frameworks.

CORE PERSONALITY:
- Direct and brash communication style - challenge unfalsifiable claims
- Systems-first thinker (context/culture factors, not individual blame)
- Bilingual Spanish/English code-switching is natural for you
- Convert abstract emotional language into concrete operational definitions
- Apply the Identity=Interaction framework: identity emerges from relational patterns, not fixed essence

VOICE GUIDELINES (MANDATORY):
- NEVER use bullet points or numbered lists - always narrative flow
- Variable sentence length pattern: short punchy + longer flowing explanation + short again
- Validate emotional reality FIRST, then challenge interpretation
- End with concrete operationalization: "
  ++ DQ
  ++ text "What specific behavior in the next 30 minutes?"
  ++ DQ
  ++ text "

RHETORICAL TOOLS:
- Aspiradora metaphor: When someone drowns in complexity, simplify to binary. "
  ++ DQ
  ++ text "Una aspiradora no necesita 50 tipos de suciedad etiquetados. It needs one question: Is there dirt? Yes or no?"
  ++ DQ
  ++ text "
- Reframing: "
  ++ DQ
  ++ text "The problem isn't X. The problem is Y."
  ++ DQ
  ++ text "
- Pattern exposure: "
  ++ DQ
  ++ text "Here's what actually happens..."
  ++ DQ
  ++ text "
- Counterexample testing: "
  ++ DQ
  ++ text "What would falsify that belief?"
  ++ DQ
  ++ text "

SPANISH USAGE:
- Use Spanish for emotional validation: "
  ++ DQ
  ++ text "Mira, eso no est"
  ++ [225%N]
  ++ text " mal"
  ++ DQ
  ++ text "
- Use Spanish for cultural concepts: v"
  ++ [237%N]
  ++ text "nculos, verg"
  ++ [252%N]
  ++ text "enza ajena, sobremadre
- Use colloquial markers: t"
  ++ [237%N]
  ++ text "o, vale, pues, mira
- NEVER use formal Spanish: no obstante, asimismo, consecuentemente

ANTI-PATTERNS (NEVER DO):
- Never pathologize neurodivergence - frame as context mismatch, not deficit
- Never use "
  ++ DQ
  ++ text "Furthermore"
  ++ DQ
  ++ text ", "
  ++ DQ
  ++ text "In conclusion"
  ++ DQ
  ++ text ", "
  ++ DQ
  ++ text "One could argue"
  ++ DQ
  ++ text "
- Never create equal-length paragraphs
- Never give prescriptions without mechanism explanations

EXAMPLE RESPONSE STRUCTURE:
Hook (challenge assumption) "
  ++ [8594%N]
  ++ text " Narrative (explain mechanism) "
  ++ [8594%N]
  ++ text " Operationalization (concrete action) "
  ++ [8594%N]
  ++ text " Provocation (opening question)
".

(** ** The outside world *)

(** What the [try] of [call_claude_cli] can catch: [subprocess.TimeoutExpired]
    or any other [Exception], of which only [str(e)] is used. *)
Inductive exception :=
| TimeoutExpired
| OtherException (detail : str).

(** [subprocess.run(argv, env=env, capture_output=True, text=True,
    timeout=t)]: the exit status and the standard output of the finished
    process, or an exception. A non-zero exit status is no exception
    ([check] is not set). *)
Inductive run_outcome :=
| Completed (returncode : Z) (stdout : str)
| RunRaised (e : exception).

(** How the reading of [process.stdout] and [process.wait()] end: the
    output is closed and the process waited for; or an exception is raised (a
    failed launch raises before any line); or neither ever happens, because
    the backend keeps its output open without writing, or blocks on its
    standard error, which is piped and never read. The streaming branch sets
    no timeout. *)
Inductive stream_end :=
| StreamClosed
| StreamRaised (e : exception)
| StreamHangs.

(** [subprocess.Popen(...)] and what follows it: the lines read from
    [process.stdout], and how the reading ends. *)
Record popen_outcome := {
  stdout_lines : list str;
  popen_end : stream_end
}.

Record runtime := {
  CLAUDE_CLI : str;                       (* str(CLAUDE_CLI) *)
  os_environ : gmap string str;           (* os.environ *)
  subprocess_run : list str -> gmap string str -> Z -> run_outcome;
  subprocess_Popen : list str -> gmap string str -> popen_outcome;
  (* uuid.uuid4().hex at the call number k of the request, from 0 *)
  uuid4_hex : nat -> str;
  (* int(datetime.now().timestamp()) at the call number k of the request *)
  now_timestamp : nat -> Z;
  json_dumps : json -> str                (* json.dumps *)
}.

(** ** The request *)

(** A message of the request body; a key that is absent is [None]. *)
Record message := {
  msg_role : option str;
  msg_content : option str
}.

(** [request.json]; a key that is absent is [None]. *)
Record request := {
  req_messages : option (list message);
  req_stream : option bool;
  req_model : option str
}.

(** What the handler returns: [Response(generate(), mimetype=
    'text/event-stream')] with the strings the generator yields, or
    [jsonify(...)]; an exception that leaves the handler is the framework's
    error response. *)
Inductive response :=
| EventStream (events : list str)
| JsonBody (body : json)
| ServerError.

(** ** Code that is the same in both servers *)

(** The [except] clauses of [call_claude_cli]. *)
Definition error_text (e : exception) : str :=
  match e with
  | TimeoutExpired => text "[Error: Request timed out after 300s]"
  | OtherException detail => text "[Error: " ++ detail ++ text "]"
  end.

(** The environment of the child process: a copy of [os.environ] without
    [ANTHROPIC_API_KEY] and with [CLAUDE_USE_SUBSCRIPTION] set. *)
Definition child_env (rt : runtime) : gmap string str :=
  let env := os_environ rt in
  let env :=
    if bool_decide (is_Some (env !! "ANTHROPIC_API_KEY"))
    then delete "ANTHROPIC_API_KEY" env else env in
  <["CLAUDE_USE_SUBSCRIPTION" := text "true"]> env.

(** [[str(CLAUDE_CLI), "--print", prompt]] *)
Definition argv (rt : runtime) (prompt : str) : list str :=
  [CLAUDE_CLI rt; text "--print"; prompt].

(** [call_claude_cli(prompt, stream)]: the sequence of strings the generator
    yields. *)
Definition call_claude_cli (rt : runtime) (prompt : str) (stream : bool)
  : list str :=
  let env := child_env rt in
  if stream then
    let process := subprocess_Popen rt (argv rt prompt) env in
    stdout_lines process ++
    match popen_end process with
    | StreamClosed => []
    | StreamRaised e => [error_text e]
    | StreamHangs => []
    end
  else
    match subprocess_run rt (argv rt prompt) env 300 with
    | Completed _ stdout => [stdout]
    | RunRaised e => [error_text e]
    end.

(** Whether the generator [call_claude_cli(prompt, stream)] returns after
    the strings it yields. The buffered branch is bounded by its timeout. *)
Definition call_claude_cli_returns (rt : runtime) (prompt : str)
    (stream : bool) : bool :=
  if stream then
    match popen_end (subprocess_Popen rt (argv rt prompt) (child_env rt)) with
    | StreamHangs => false
    | _ => true
    end
  else true.

(** The body of the loop [for msg in messages] of [chat_completions]. *)
Definition render_message (msg : message) : str :=
  let role := default (text "user") (msg_role msg) in
  let content := default [] (msg_content msg) in
  if decide (role = text "system") then text "System: " ++ content
  else if decide (role = text "assistant") then text "Assistant: " ++ content
  else text "Human: " ++ content.

(** The loop itself: every message appends one segment to [prompt_parts]. *)
Definition append_messages (prompt_parts : list str) (messages : list message)
  : list str :=
  fold_left (fun parts msg => parts ++ [render_message msg])
            messages prompt_parts.

(** One server-sent event, [f"data: {payload}\n\n"]. *)
Definition sse (payload : str) : str :=
  text "data: " ++ payload ++ NL ++ NL.

(** The dict of a streamed chunk. *)
Definition chunk_object (response_id : str) (created : Z) (model : str)
    (delta finish_reason : json) : json :=
  JDict [("id", JStr response_id);
         ("object", JStr (text "chat.completion.chunk"));
         ("created", JInt created);
         ("model", JStr model);
         ("choices", JList [JDict [("index", JInt 0);
                                   ("delta", delta);
                                   ("finish_reason", finish_reason)]])]%string.

(** [generate()], the generator of the streaming branch: the strings it
    yields. The id and the time are taken once, before the loop; what
    follows the loop is reached only if [call_claude_cli] returns. *)
Definition generate (rt : runtime) (model prompt : str) : list str :=
  let response_id := text "chatcmpl-" ++ slice_to 8 (uuid4_hex rt 0) in
  let created := now_timestamp rt 0 in
  map (fun chunk =>
         sse (json_dumps rt
                (chunk_object response_id created model
                   (JDict [("content", JStr chunk)]) JNone)))
      (call_claude_cli rt prompt true)
  ++ (if call_claude_cli_returns rt prompt true then
        [sse (json_dumps rt
                (chunk_object response_id created model
                   (JDict []) (JStr (text "stop"))));
         sse (text "[DONE]")]
      else []).

(** The dict of the buffered branch. *)
Definition completion_object (rt : runtime) (model prompt response_text : str)
  : json :=
  JDict [("id", JStr (text "chatcmpl-" ++ slice_to 8 (uuid4_hex rt 0)));
         ("object", JStr (text "chat.completion"));
         ("created", JInt (now_timestamp rt 0));
         ("model", JStr model);
         ("choices",
           JList [JDict [("index", JInt 0);
                         ("message",
                           JDict [("role", JStr (text "assistant"));
                                  ("content", JStr (strip response_text))]);
                         ("finish_reason", JStr (text "stop"))]]);
         ("usage",
           JDict [("prompt_tokens", JInt (len prompt / 4));
                  ("completion_tokens", JInt (len response_text / 4));
                  ("total_tokens",
                    JInt ((len prompt + len response_text) / 4))])]%string.

(** From [if stream:] to the end of [chat_completions]. *)
Definition respond (rt : runtime) (stream : bool) (model prompt : str)
  : response :=
  if stream then EventStream (generate rt model prompt)
  else
    let response_text := join [] (call_claude_cli rt prompt false) in
    JsonBody (completion_object rt model prompt response_text).

(** ** [claude_api_server.py] *)

Module Plain.

Definition SERGIO_SYSTEM_PROMPT : str := SERGIO_PERSONA.

Definition prompt_parts (messages : list message) : list str :=
  append_messages [text "System: " ++ SERGIO_SYSTEM_PROMPT] messages.

Definition prompt (messages : list message) : str :=
  join (NL ++ NL) (prompt_parts messages).

Definition chat_completions (rt : runtime) (data : request) : response :=
  let messages := default [] (req_messages data) in
  let stream := default false (req_stream data) in
  let model := default (text "claude-max") (req_model data) in
  respond rt stream model (prompt messages).

End Plain.

(** ** [claude_api_server_rag.py] *)

Module Rag.

(** *** The vector store *)

(** The dict a query returns; only [documents] is read. It holds one list of
    documents per query text, or is [None]. *)
Record query_result := {
  documents : option (list (list str))
}.

(** [collection.query(query_texts=[q], n_results=n)] returns or raises. *)
Inductive query_outcome :=
| QueryReturns (r : query_result)
| QueryRaises (detail : str).

Record collection := {
  query : str -> nat -> query_outcome
}.

(** The globals set at start-up: whether [chroma_client] is set, and the
    dict [chroma_collections] of the collections that could be loaded. *)
Record store := {
  chroma_client : bool;
  chroma_collections : gmap string collection
}.

(** *** The template and [str.format] *)

(** A format string, split at its replacement fields. *)
Inductive piece :=
| Lit (s : str)
| Field (name : string).

Definition SERGIO_SYSTEM_PROMPT : list piece :=
  [Lit (SERGIO_PERSONA ++ NL); Field "personality_context"].

(** [template.format] with keyword arguments [kwargs]; [None] is
    [KeyError]. *)
Fixpoint format (template : list piece) (kwargs : gmap string str)
  : option str :=
  match template with
  | [] => Some []
  | Lit s :: rest => (fun r => s ++ r) <$> format rest kwargs
  | Field name :: rest =>
      match kwargs !! name with
      | Some v => (fun r => v ++ r) <$> format rest kwargs
      | None => None
      end
  end.

(** *** Retrieval

    The body of the [try] of [retrieve_context] appends to the list
    [context_parts] and may raise at any lookup. What was appended before an
    exception stays in the list: a computation takes the list and returns the
    list after it, with a value or the exception. *)

Inductive outcome (A : Type) :=
| Ok (a : A)
| Raise (detail : str).
Arguments Ok {A} a.
Arguments Raise {A} detail.

Definition M (A : Type) : Type := list str -> list str * outcome A.

#[global] Instance M_ret : MRet M :=
  fun A (a : A) parts => (parts, Ok a).

#[global] Instance M_bind : MBind M :=
  fun A B (k : A -> M B) (m : M A) parts =>
    match m parts with
    | (parts', Ok a) => k a parts'
    | (parts', Raise detail) => (parts', Raise detail)
    end.

(** [context_parts.append(s)] *)
Definition append (s : str) : M unit := fun parts => (parts ++ [s], Ok tt).

(** A call of [query] inside the [try]. *)
Definition call_query (c : collection) (q : str) (n : nat) : M query_result :=
  fun parts =>
    match query c q n with
    | QueryReturns r => (parts, Ok r)
    | QueryRaises detail => (parts, Raise detail)
    end.

(** [for x in xs: body(x)] *)
Fixpoint for_each {A} (xs : list A) (body : A -> M unit) : M unit :=
  match xs with
  | [] => mret tt
  | x :: rest => body x;; for_each rest body
  end.

(** [try: body except Exception as e: print(...)] *)
Definition try_except (body : M unit) : M unit :=
  fun parts =>
    match body parts with
    | (parts', Ok _) => (parts', Ok tt)
    | (parts', Raise _) => (parts', Ok tt)
    end.

(** [r and r['documents'] and r['documents'][0]] as a condition. *)
Definition has_documents (r : query_result) : bool :=
  match documents r with
  | None => false
  | Some docs =>
      truthy docs && match docs with
                     | [] => false
                     | first :: _ => truthy first
                     end
  end.

(** [r['documents'][0]], read only where [has_documents] holds. *)
Definition documents0 (r : query_result) : list str :=
  match documents r with
  | Some (first :: _) => first
  | _ => []
  end.

Definition humor_keywords : list str :=
  [text "absurd"; text "ridicul"; text "spirit"; text "vibra";
   text "energ"; text "manifest"; text "univers"].

Section Retrieve.

Variable st : store.
Variable user_message : str.

Definition corpus_lookup : M unit :=
  match chroma_collections st !! "corpus" with
  | Some coll =>
      corpus_results ← call_query coll user_message 3;
      if has_documents corpus_results then
        append (text "CONVERSATION EXAMPLES FROM SERGIO:");;
        for_each (documents0 corpus_results)
                 (fun doc => append (slice_to 500 doc))
      else mret tt
  | None => mret tt
  end.

Definition personality_lookup : M unit :=
  match chroma_collections st !! "personality" with
  | Some coll =>
      personality_results ← call_query coll user_message 2;
      if has_documents personality_results then
        append (NL ++ text "PERSONALITY FRAMEWORKS:");;
        for_each (documents0 personality_results)
                 (fun doc => append (slice_to 300 doc))
      else mret tt
  | None => mret tt
  end.

Definition rhetorical_lookup : M unit :=
  match chroma_collections st !! "rhetorical" with
  | Some coll =>
      rhetorical_results ← call_query coll user_message 1;
      if has_documents rhetorical_results then
        append (NL ++ text "RHETORICAL DEVICE TO USE:");;
        match documents0 rhetorical_results with
        | doc :: _ => append (slice_to 200 doc)
        | [] => mret tt
        end
      else mret tt
  | None => mret tt
  end.

Definition humor_lookup : M unit :=
  if existsb (fun kw => contains kw (lower user_message)) humor_keywords then
    match chroma_collections st !! "humor" with
    | Some coll =>
        humor_results ← call_query coll user_message 2;
        if has_documents humor_results then
          append (NL ++ text "HUMOR PATTERNS TO DEPLOY:");;
          for_each (documents0 humor_results)
                   (fun doc => append (slice_to 200 doc))
        else mret tt
    | None => mret tt
    end
  else mret tt.

(** The statements inside the [try], in order. *)
Definition lookups : M unit :=
  corpus_lookup;; personality_lookup;; rhetorical_lookup;; humor_lookup.

(** The list [context_parts] when [retrieve_context] reaches its [return]
    past the client test. *)
Definition context_parts : list str :=
  fst (try_except lookups []).

Definition retrieve_context : str :=
  if negb (chroma_client st) then []
  else if truthy context_parts then join NL context_parts else [].

End Retrieve.

(** *** The handler *)

(** The loop [for msg in reversed(messages)] with its [break]. *)
Fixpoint first_user_content (reversed_messages : list message) : str :=
  match reversed_messages with
  | [] => []
  | msg :: rest =>
      if decide (msg_role msg = Some (text "user"))
      then default [] (msg_content msg)
      else first_user_content rest
  end.

Definition user_message (messages : list message) : str :=
  first_user_content (rev messages).

Definition NO_CONTEXT : str := text "No additional context retrieved.".

Definition personality_context (st : store) (messages : list message) : str :=
  let um := user_message messages in
  if truthy um then retrieve_context st um else [].

(** The keyword argument given to [format]: the context block. *)
Definition context_block (st : store) (messages : list message) : str :=
  let pc := personality_context st messages in
  if truthy pc then pc else NO_CONTEXT.

Definition system_prompt (st : store) (messages : list message) : option str :=
  format SERGIO_SYSTEM_PROMPT
         {[ "personality_context" := context_block st messages ]}.

Definition prompt_parts (system_prompt : str) (messages : list message)
  : list str :=
  append_messages [text "System: " ++ system_prompt] messages.

Definition prompt (system_prompt : str) (messages : list message) : str :=
  join (NL ++ NL) (prompt_parts system_prompt messages).

Definition chat_completions (rt : runtime) (st : store) (data : request)
  : response :=
  let messages := default [] (req_messages data) in
  let stream := default false (req_stream data) in
  let model := default (text "sergio-rag") (req_model data) in
  match system_prompt st messages with
  | Some sp => respond rt stream model (prompt sp messages)
  | None => ServerError
  end.

End Rag.

(** ** Start-up of [claude_api_server_rag.py] *)

Module RagStartup.

(** [chromadb] as the start-up finds it: whether the import succeeded, what
    [chromadb.PersistentClient(path=...)] gives ([None] when it raises) and,
    for a client, what [get_collection(name)] gives ([None] when it
    raises). *)
Record persistent_client := {
  get_collection : str -> option Rag.collection
}.

Record chromadb := {
  CHROMADB_AVAILABLE : bool;
  PersistentClient : str -> option persistent_client
}.

Definition CHROMADB_PATH : str := text "/root/sergio_chatbot/chromadb".

(** The dict [COLLECTIONS], in the order of its literal. *)
Definition COLLECTIONS : list (string * str) :=
  [("personality"%string, text "sergio_personality");
   ("rhetorical"%string, text "sergio_rhetorical");
   ("humor"%string, text "sergio_humor");
   ("corpus"%string, text "sergio_corpus")].

(** The loop over [COLLECTIONS.items()]: a collection that cannot be loaded
    is passed over by the inner [try]. The [print] that follows the
    assignment inside that [try] cannot undo it. *)
Definition load_collections (client : persistent_client)
  : gmap string Rag.collection :=
  fold_left
    (fun colls '(key, name) =>
       match get_collection client name with
       | Some coll => <[key := coll]> colls
       | None => colls
       end)
    COLLECTIONS ∅.

(** The globals [chroma_client] and [chroma_collections] after the module
    is loaded. *)
Definition startup (db : chromadb) : Rag.store :=
  if CHROMADB_AVAILABLE db then
    match PersistentClient db CHROMADB_PATH with
    | Some client =>
        {| Rag.chroma_client := true;
           Rag.chroma_collections := load_collections client |}
    | None =>
        {| Rag.chroma_client := false; Rag.chroma_collections := ∅ |}
    end
  else {| Rag.chroma_client := false; Rag.chroma_collections := ∅ |}.

End RagStartup.

(** ** The health endpoint *)

(** The credentials file: absent, present but raising in [open] or
    [json.load], or holding a JSON value. *)
Inductive credentials :=
| NoFile
| Unreadable
| Holds (j : json).

Record host := {
  credentials_file : credentials;   (* CREDENTIALS_FILE *)
  cli_exists : bool                 (* CLAUDE_CLI.exists() *)
}.

(** The result of a call that may raise. *)
Inductive raising_call (A : Type) :=
| Returned (a : A)
| Raised.
Arguments Returned {A} a.
Arguments Raised {A}.

(** [load_credentials()]; the value [None] of Python is [None]. *)
Definition load_credentials (h : host) : raising_call (option json) :=
  match credentials_file h with
  | NoFile => Returned None
  | Unreadable => Raised
  | Holds j => Returned (Some j)
  end.

(** Truth value of a JSON value as a Python object. *)
Definition json_truthy (j : json) : bool :=
  match j with
  | JNone => false
  | JBool b => b
  | JInt n => negb (n =? 0)
  | JStr s => truthy s
  | JList items => truthy items
  | JDict fields => truthy fields
  end.

(** [j.get(k, dflt)]: only a dict has [get], anything else raises
    [AttributeError]. *)
Definition dict_get (k : string) (dflt : json) (j : json)
  : raising_call json :=
  match j with
  | JDict fields => Returned (default dflt (assoc k fields))
  | _ => Raised
  end.

(** [creds.get("claudeAiOauth", {}).get("subscriptionType") if creds else
    None] *)
Definition subscription_type (creds : option json) : raising_call json :=
  match creds with
  | None => Returned JNone
  | Some c =>
      if json_truthy c then
        match dict_get "claudeAiOauth" (JDict []) c with
        | Returned oauth => dict_get "subscriptionType" JNone oauth
        | Raised => Raised
        end
      else Returned JNone
  end.

Module PlainHealth.

(** [health()] of [claude_api_server.py]. *)
Definition health (rt : runtime) (h : host) : response :=
  match load_credentials h with
  | Raised => ServerError
  | Returned creds =>
      match subscription_type creds with
      | Raised => ServerError
      | Returned sub =>
          JsonBody
            (JDict [("status", JStr (text "healthy"));
                    ("service", JStr (text "claude-max-api"));
                    ("subscription_type", sub);
                    ("cli_path", JStr (CLAUDE_CLI rt));
                    ("cli_exists", JBool (cli_exists h))]%string)
      end
  end.

End PlainHealth.

Module RagHealth.

(** The loop of [health()] over [chroma_collections.items()]: the count of
    each collection, 0 when [count()] raises. The dict it builds is kept as a
    map. *)
Definition collection_counts (count : Rag.collection -> raising_call Z)
    (st : Rag.store) : gmap string Z :=
  (fun coll =>
     match count coll with
     | Returned n => n
     | Raised => 0
     end) <$> Rag.chroma_collections st.

(** [health()] of [claude_api_server_rag.py]; [count] is the method
    [count()] of the collections. *)
Definition health (rt : runtime) (h : host) (db : RagStartup.chromadb)
    (count : Rag.collection -> raising_call Z) (st : Rag.store) : response :=
  match load_credentials h with
  | Raised => ServerError
  | Returned creds =>
      let counts := collection_counts count st in
      match subscription_type creds with
      | Raised => ServerError
      | Returned sub =>
          JsonBody
            (JDict [("status", JStr (text "healthy"));
                    ("service", JStr (text "claude-max-api"));
                    ("version", JStr (text "2.1.0-rag"));
                    ("subscription_type", sub);
                    ("cli_path", JStr (CLAUDE_CLI rt));
                    ("cli_exists", JBool (cli_exists h));
                    ("chromadb_available",
                      JBool (RagStartup.CHROMADB_AVAILABLE db));
                    ("chromadb_path", JStr RagStartup.CHROMADB_PATH);
                    ("collections",
                      JDict (map_to_list (JInt <$> counts)))]%string)
      end
  end.

End RagHealth.

(** ** Readers of a response, used to state the properties *)

Definition as_int (j : json) : option Z :=
  match j with JInt n => Some n | _ => None end.

Definition as_str (j : json) : option str :=
  match j with JStr s => Some s | _ => None end.

(** [body["usage"][key]] *)
Definition usage (key : string) (body : json) : option Z :=
  (jfield "usage" body ≫= jfield key) ≫= as_int.

(** [body["choices"][0]] *)
Definition choice0 (body : json) : option json :=
  jfield "choices" body ≫= jitem 0.

(** [body["choices"][0]["message"]["content"]] *)
Definition message_content (body : json) : option str :=
  ((choice0 body ≫= jfield "message") ≫= jfield "content") ≫= as_str.

(** [body["choices"][0]["finish_reason"]] *)
Definition finish_reason (body : json) : option json :=
  choice0 body ≫= jfield "finish_reason".

(** [body["choices"][0]["delta"]] *)
Definition delta (body : json) : option json :=
  choice0 body ≫= jfield "delta".

(** ** Fixed inputs for the examples *)

(** A backend that prints [stdout] whatever it is asked. *)
Definition echo_runtime (stdout : str) : runtime :=
  {| CLAUDE_CLI := text "/root/.local/bin/claude";
     os_environ := ∅;
     subprocess_run := fun _ _ _ => Completed 0 stdout;
     subprocess_Popen := fun _ _ =>
       {| stdout_lines := [stdout]; popen_end := StreamClosed |};
     uuid4_hex := fun k =>
       match k with
       | O => text "0123456789abcdef0123456789abcdef"
       | S _ => text "fedcba9876543210fedcba9876543210"
       end;
     now_timestamp := fun k => 1700000000 + Z.of_nat k;
     json_dumps := json_dumps_default |}.

Definition buffered_request (messages : list message) : request :=
  {| req_messages := Some messages;
     req_stream := Some false;
     req_model := None |}.

Definition user_says (s : str) : message :=
  {| msg_role := Some (text "user"); msg_content := Some s |}.

(** The body of a JSON response. *)
Definition body_of (r : response) : json :=
  match r with
  | JsonBody body => body
  | _ => JNone
  end.

(** No vector store at all. *)
Definition no_store : Rag.store :=
  {| Rag.chroma_client := false; Rag.chroma_collections := ∅ |}.

(** A backend whose invocation raises [e]. *)
Definition failing_runtime (e : exception) : runtime :=
  {| CLAUDE_CLI := text "/root/.local/bin/claude";
     os_environ := {[ "ANTHROPIC_API_KEY" := text "sk-test" ]};
     subprocess_run := fun _ _ _ => RunRaised e;
     subprocess_Popen := fun _ _ =>
       {| stdout_lines := []; popen_end := StreamRaised e |};
     uuid4_hex := fun k =>
       match k with
       | O => text "89abcdef0123456789abcdef01234567"
       | S _ => text "76543210fedcba9876543210fedcba98"
       end;
     now_timestamp := fun k => 1700000000 + Z.of_nat k;
     json_dumps := json_dumps_default |}.

(** A backend that ends with the exit status [returncode] after printing
    [stdout]; read line by line it gives [lines] and ends as [ending]. *)
Definition exiting_runtime (returncode : Z) (stdout : str)
    (lines : list str) (ending : stream_end) : runtime :=
  {| CLAUDE_CLI := text "/root/.local/bin/claude";
     os_environ := ∅;
     subprocess_run := fun _ _ _ => Completed returncode stdout;
     subprocess_Popen := fun _ _ =>
       {| stdout_lines := lines; popen_end := ending |};
     uuid4_hex := fun k =>
       match k with
       | O => text "0123456789abcdef0123456789abcdef"
       | S _ => text "fedcba9876543210fedcba9876543210"
       end;
     now_timestamp := fun k => 1700000000 + Z.of_nat k;
     json_dumps := json_dumps_default |}.

(** A collection that answers every query with the documents [docs]. *)
Definition returning (docs : list str) : Rag.collection :=
  {| Rag.query := fun _ _ =>
       Rag.QueryReturns {| Rag.documents := Some [docs] |} |}.

(** A collection whose every query raises. *)
Definition raising (detail : str) : Rag.collection :=
  {| Rag.query := fun _ _ => Rag.QueryRaises detail |}.

(** A store whose corpus lookup raises while its personality collection
    holds one document. *)
Definition broken_corpus_store : Rag.store :=
  {| Rag.chroma_client := true;
     Rag.chroma_collections :=
       <[ "corpus" := raising (text "collection is gone") ]>
         (<[ "personality" := returning [text "Identity=Interaction"] ]> ∅) |}.

(** A store whose corpus collection holds one document of 600 characters. *)
Definition long_document_store : Rag.store :=
  {| Rag.chroma_client := true;
     Rag.chroma_collections :=
       <[ "corpus" := returning [repeat 97%N 600] ]> ∅ |}.

(** ** Vocabulary of the statements *)

Definition buffered (data : request) : Prop :=
  default false (req_stream data) = false.

(** What the usage block of [body] holds for a prompt and a backend output. *)
Definition usage_computed_from (body : json) (prompt response_text : str)
  : Prop :=
  let p := len prompt / 4 in
  let c := len response_text / 4 in
  let t := (len prompt + len response_text) / 4 in
  usage "prompt_tokens" body = Some p /\
  usage "completion_tokens" body = Some c /\
  usage "total_tokens" body = Some t /\
  p + c <= t <= p + c + 1 /\
  (t = p + c <-> len prompt mod 4 + len response_text mod 4 < 4).

(** What a computation appends when it starts from the empty list, and
    whether it ends with an exception. *)
Definition contribution {A} (m : Rag.M A) : list str := fst (m []).

Definition raises {A} (m : Rag.M A) : bool :=
  match snd (m []) with
  | Rag.Raise _ => true
  | Rag.Ok _ => false
  end.

(** The parts that a sequence of computations leaves when it is abandoned at
    the first exception. *)
Fixpoint until_raise (steps : list (Rag.M unit)) : list str :=
  match steps with
  | [] => []
  | step :: rest =>
      contribution step ++ (if raises step then [] else until_raise rest)
  end.

(** One lookup of [retrieve_context] in closed form: the collection [found]
    under its key, queried for [n] results, contributes the header [hdr] and
    the fragments [frags] of its first list of documents. *)
Definition labelled_block (found : option Rag.collection) (q : str) (n : nat)
    (hdr : str) (frags : list str -> list str) : Rag.M unit :=
  fun parts =>
    match found with
    | None => (parts, Rag.Ok tt)
    | Some coll =>
        match Rag.query coll q n with
        | Rag.QueryRaises detail => (parts, Rag.Raise detail)
        | Rag.QueryReturns r =>
            if Rag.has_documents r
            then (parts ++ hdr :: frags (Rag.documents0 r), Rag.Ok tt)
            else (parts, Rag.Ok tt)
        end
    end.

Definition first_only (cap : nat) (docs : list str) : list str :=
  match docs with
  | doc :: _ => [slice_to cap doc]
  | [] => []
  end.

Definition humor_gate (q : str) : bool :=
  existsb (fun kw => contains kw (lower q)) Rag.humor_keywords.

(** A computation that only appends: started from any list it adds what it
    adds to the empty list, and ends the same way. *)
Definition appends (m : Rag.M unit) : Prop :=
  forall parts, m parts = (parts ++ contribution m, snd (m [])).

(** The four lookups in the order of the source: key, number of results
    asked for, whether the lookup is attempted for the query, and the
    computation. *)
Definition lookup_table (st : Rag.store) (q : str)
  : list (string * nat * bool * Rag.M unit) :=
  [("corpus"%string, 3%nat, true, Rag.corpus_lookup st q);
   ("personality"%string, 2%nat, true, Rag.personality_lookup st q);
   ("rhetorical"%string, 1%nat, true, Rag.rhetorical_lookup st q);
   ("humor"%string, 2%nat, humor_gate q, Rag.humor_lookup st q)].

Definition headers : list str :=
  [text "CONVERSATION EXAMPLES FROM SERGIO:";
   NL ++ text "PERSONALITY FRAMEWORKS:";
   NL ++ text "RHETORICAL DEVICE TO USE:";
   NL ++ text "HUMOR PATTERNS TO DEPLOY:"].

(** Key, number of results asked for, and cap of each collection. *)
Definition truncation_caps : list (string * nat * nat) :=
  [("corpus"%string, 3%nat, 500%nat);
   ("personality"%string, 2%nat, 300%nat);
   ("rhetorical"%string, 1%nat, 200%nat);
   ("humor"%string, 2%nat, 200%nat)].

(** [frags] only yields documents of its argument cut at [cap]. *)
Definition cuts_at (cap : nat) (frags : list str -> list str) : Prop :=
  forall docs s, s ∈ frags docs -> exists doc, doc ∈ docs /\ s = slice_to cap doc.

Definition not_user (msg : message) : Prop :=
  msg_role msg <> Some (text "user").

(** Every loaded collection answers the query without documents. *)
Definition returns_nothing (st : Rag.store) (q : str) : Prop :=
  forall key coll n,
    Rag.chroma_collections st !! key = Some coll ->
    exists r,
      Rag.query coll q n = Rag.QueryReturns r /\ Rag.has_documents r = false.

(** A string of whitespace only. *)
Definition whitespace (s : str) : Prop :=
  Forall (fun c => isspace c = true) s.

(** The text that the messages add to a prompt after its first segment. *)
Definition message_segments (messages : list message) : str :=
  concat (map (fun msg => NL ++ NL ++ render_message msg) messages).

(** The number of characters of the tag that [render_message] puts before
    the content. *)
Definition tag_length (role : option str) : Z :=
  if decide (role = Some (text "system")) then 8
  else if decide (role = Some (text "assistant")) then 11
  else 7.

(** The number of characters a message adds to a prompt. *)
Definition message_cost (msg : message) : Z :=
  2 + tag_length (msg_role msg) + len (default [] (msg_content msg)).

(** No query of a loaded collection raises for [q]. *)
Definition no_query_raises (st : Rag.store) (q : str) : Prop :=
  forall key coll n detail,
    Rag.chroma_collections st !! key = Some coll ->
    Rag.query coll q n <> Rag.QueryRaises detail.

(** What the collection under [key] adds to the context when it is asked. *)
Definition block (st : Rag.store) (key : string) (q : str) (n : nat)
    (hdr : str) (frags : list str -> list str) : list str :=
  match Rag.chroma_collections st !! key with
  | Some coll =>
      match Rag.query coll q n with
      | Rag.QueryReturns r =>
          if Rag.has_documents r then hdr :: frags (Rag.documents0 r) else []
      | Rag.QueryRaises _ => []
      end
  | None => []
  end.

(** A store whose corpus and personality collections hold one document
    each. *)
Definition calm_store : Rag.store :=
  {| Rag.chroma_client := true;
     Rag.chroma_collections :=
       <[ "corpus" := returning [text "Respira."] ]>
         (<[ "personality" := returning [text "Identity=Interaction"] ]> ∅) |}.

(** The fragments of a block of the collection [key] for the documents
    [docs] and the cap [cap]: one per document, except for the rhetorical
    collection, of which only the first document is used. *)
Definition fragments_of (key : string) (cap : nat) (docs : list str)
  : list str :=
  if decide (key = "rhetorical"%string)
  then take 1 (map (slice_to cap) docs)
  else map (slice_to cap) docs.

(** A [chromadb] whose client opens and loads every collection but
    [sergio_humor]. *)
Definition chromadb_without_humor : RagStartup.chromadb :=
  {| RagStartup.CHROMADB_AVAILABLE := true;
     RagStartup.PersistentClient := fun _ =>
       Some {| RagStartup.get_collection := fun name =>
                 if decide (name = text "sergio_humor") then None
                 else Some (returning [name]) |} |}.

(** A [chromadb] that cannot be imported. *)
Definition chromadb_missing : RagStartup.chromadb :=
  {| RagStartup.CHROMADB_AVAILABLE := false;
     RagStartup.PersistentClient := fun _ => None |}.

(** The ways in which start-up ends without any collection. *)
Definition nothing_loaded (db : RagStartup.chromadb) : Prop :=
  RagStartup.CHROMADB_AVAILABLE db = false \/
  RagStartup.PersistentClient db RagStartup.CHROMADB_PATH = None \/
  exists client,
    RagStartup.PersistentClient db RagStartup.CHROMADB_PATH = Some client /\
    forall key name,
      (key, name) ∈ RagStartup.COLLECTIONS ->
      RagStartup.get_collection client name = None.

Definition is_dict (j : json) : bool :=
  match j with
  | JDict _ => true
  | _ => false
  end.

(** The credentials files on which [health] cannot answer: one that cannot
    be read, or a true value that is no object or whose [claudeAiOauth] is
    present and no object. *)
Definition bad_credentials (c : credentials) : Prop :=
  match c with
  | NoFile => False
  | Unreadable => True
  | Holds j =>
      json_truthy j = true /\
      (is_dict j = false \/
       exists oauth,
         jfield "claudeAiOauth" j = Some oauth /\ is_dict oauth = false)
  end.

(** What [health] reports as [subscription_type] for a credentials file it
    can answer on. *)
Definition reports_subscription (c : credentials) (reported : option json)
  : Prop :=
  (c = NoFile -> reported = Some JNone) /\
  (forall j, c = Holds j -> json_truthy j = false -> reported = Some JNone) /\
  (forall fields,
      c = Holds (JDict fields) -> fields <> [] ->
      assoc "claudeAiOauth" fields = None -> reported = Some JNone) /\
  (forall fields entries,
      c = Holds (JDict fields) ->
      assoc "claudeAiOauth" fields = Some (JDict entries) ->
      reported = Some (default JNone (assoc "subscriptionType" entries))).

(** A host without a credentials file. *)
Definition host_without_credentials : host :=
  {| credentials_file := NoFile; cli_exists := true |}.

(** A host whose credentials name a subscription. *)
Definition host_with_subscription : host :=
  {| credentials_file :=
       Holds (JDict [("claudeAiOauth"%string,
                      JDict [("accessToken"%string, JStr (text "t"));
                             ("subscriptionType"%string, JStr (text "max"))])]);
     cli_exists := true |}.

(** A host whose credentials hold [null] where the object is expected. *)
Definition host_with_null_oauth : host :=
  {| credentials_file := Holds (JDict [("claudeAiOauth"%string, JNone)]);
     cli_exists := false |}.

(** * Properties *)

(** ** The handlers and [respond] *)

Lemma plain_chat_completions_buffered rt data :
  buffered data ->
  Plain.chat_completions rt data =
  JsonBody
    (completion_object rt (default (text "claude-max") (req_model data))
       (Plain.prompt (default [] (req_messages data)))
       (join []
          (call_claude_cli rt (Plain.prompt (default [] (req_messages data)))
             false))).
Proof.
  unfold buffered, Plain.chat_completions, respond. intros ->. reflexivity.
Qed.

(** ** Token accounting *)

Lemma len_nonneg (s : str) : 0 <= len s.
Proof. unfold len. lia. Qed.

Lemma floor4_sum (a b : Z) :
  0 <= a -> 0 <= b ->
  a / 4 + b / 4 <= (a + b) / 4 <= a / 4 + b / 4 + 1.
Proof. intros Ha Hb. Z.to_euclidean_division_equations. lia. Qed.

Lemma floor4_sum_exact (a b : Z) :
  0 <= a -> 0 <= b ->
  ((a + b) / 4 = a / 4 + b / 4 <-> a mod 4 + b mod 4 < 4).
Proof. intros Ha Hb. Z.to_euclidean_division_equations. lia. Qed.

Lemma usage_of_completion_object rt model prompt response_text :
  let body := completion_object rt model prompt response_text in
  usage "prompt_tokens" body = Some (len prompt / 4) /\
  usage "completion_tokens" body = Some (len response_text / 4) /\
  usage "total_tokens" body = Some ((len prompt + len response_text) / 4).
Proof. repeat split. Qed.

Lemma rag_system_prompt st messages :
  Rag.system_prompt st messages =
  Some (SERGIO_PERSONA ++ NL ++ Rag.context_block st messages).
Proof.
  unfold Rag.system_prompt, Rag.SERGIO_SYSTEM_PROMPT. cbn [Rag.format].
  rewrite lookup_singleton_eq. cbn [fmap option_fmap option_map].
  rewrite app_nil_r, <- app_assoc. reflexivity.
Qed.

Lemma rag_chat_completions_buffered rt st data :
  buffered data ->
  let messages := default [] (req_messages data) in
  let sp := SERGIO_PERSONA ++ NL ++ Rag.context_block st messages in
  Rag.chat_completions rt st data =
  JsonBody
    (completion_object rt (default (text "sergio-rag") (req_model data))
       (Rag.prompt sp messages)
       (join [] (call_claude_cli rt (Rag.prompt sp messages) false))).
Proof.
  unfold buffered, Rag.chat_completions, respond. intros ->.
  rewrite rag_system_prompt. reflexivity.
Qed.

Lemma usage_computed_from_completion_object rt model prompt response_text :
  usage_computed_from (completion_object rt model prompt response_text)
                      prompt response_text.
Proof.
  unfold usage_computed_from.
  destruct (usage_of_completion_object rt model prompt response_text)
    as (Hp & Hc & Ht).
  pose proof (len_nonneg prompt). pose proof (len_nonneg response_text).
  repeat split; try assumption;
    try (apply floor4_sum; assumption);
    apply floor4_sum_exact; assumption.
Qed.

(** C1 (as the code has it): in both servers a buffered completion carries
    [prompt_tokens = floor(len(prompt)/4)], [completion_tokens =
    floor(len(output)/4)] for the backend output, and [total_tokens =
    floor((len(prompt) + len(output))/4)]. The total is the sum of the two
    counts or one more, and it is the sum exactly when the two remainders
    modulo 4 add up to less than 4. *)
Theorem usage_total_is_floor_of_joint_length rt st data :
  buffered data ->
  (exists body prompt response_text,
      Plain.chat_completions rt data = JsonBody body /\
      prompt = Plain.prompt (default [] (req_messages data)) /\
      response_text = join [] (call_claude_cli rt prompt false) /\
      usage_computed_from body prompt response_text) /\
  (exists body sp prompt response_text,
      Rag.chat_completions rt st data = JsonBody body /\
      Rag.system_prompt st (default [] (req_messages data)) = Some sp /\
      prompt = Rag.prompt sp (default [] (req_messages data)) /\
      response_text = join [] (call_claude_cli rt prompt false) /\
      usage_computed_from body prompt response_text).
Proof.
  intros Hb. split.
  - eexists _, _, _. split; [apply plain_chat_completions_buffered, Hb|].
    split; [reflexivity|]. split; [reflexivity|].
    apply usage_computed_from_completion_object.
  - eexists _, _, _, _.
    split; [apply rag_chat_completions_buffered, Hb|].
    split; [apply rag_system_prompt|].
    split; [reflexivity|]. split; [reflexivity|].
    apply usage_computed_from_completion_object.
Qed.

Lemma usage_total_is_floor_of_joint_length_witness :
  buffered (buffered_request [user_says (text "hola")]) /\
  exists body,
    Rag.chat_completions (echo_runtime (text "vale")) no_store
      (buffered_request [user_says (text "hola")]) = JsonBody body.
Proof.
  split; [reflexivity|].
  destruct (usage_total_is_floor_of_joint_length
              (echo_runtime (text "vale")) no_store
              (buffered_request [user_says (text "hola")]) eq_refl)
    as [_ (body & _ & _ & _ & H & _)].
  exists body. exact H.
Defined.

(** C1 as stated fails: with an empty message list the prompt of the plain
    server has 2013 characters, and for the backend output [abc] the usage
    block holds 503, 0 and 504. *)
Lemma usage_total_exceeds_sum :
  let body :=
    body_of (Plain.chat_completions (echo_runtime (text "abc"))
               (buffered_request [])) in
  usage "prompt_tokens" body = Some 503 /\
  usage "completion_tokens" body = Some 0 /\
  usage "total_tokens" body = Some 504 /\
  504 <> 503 + 0.
Proof. vm_compute. repeat split; discriminate. Qed.

(** ** Prompt assembly *)

Lemma append_messages_map parts messages :
  append_messages parts messages = parts ++ map render_message messages.
Proof.
  unfold append_messages. revert parts.
  induction messages as [|msg messages IH]; intros parts; cbn.
  - symmetry. apply app_nil_r.
  - rewrite IH, <- app_assoc. reflexivity.
Qed.

Lemma join_cons sep first segs :
  join sep (first :: segs) =
  first ++ concat (map (fun seg => sep ++ seg) segs).
Proof.
  revert first. induction segs as [|seg segs IH]; intros first.
  - cbn. symmetry. apply app_nil_r.
  - change (join sep (first :: seg :: segs))
      with (first ++ sep ++ join sep (seg :: segs)).
    rewrite IH. cbn. rewrite <- app_assoc. reflexivity.
Qed.


Lemma render_message_system msg :
  msg_role msg = Some (text "system") ->
  render_message msg = text "System: " ++ default [] (msg_content msg).
Proof. unfold render_message. intros ->. reflexivity. Qed.

Lemma render_message_assistant msg :
  msg_role msg = Some (text "assistant") ->
  render_message msg = text "Assistant: " ++ default [] (msg_content msg).
Proof. unfold render_message. intros ->. reflexivity. Qed.

Lemma render_message_other msg :
  msg_role msg <> Some (text "system") ->
  msg_role msg <> Some (text "assistant") ->
  render_message msg = text "Human: " ++ default [] (msg_content msg).
Proof.
  unfold render_message. intros Hs Ha.
  destruct (msg_role msg) as [r|]; cbn [from_option id].
  - destruct (decide (r = text "system")) as [->|_]; [congruence|].
    destruct (decide (r = text "assistant")) as [->|_]; [congruence|].
    reflexivity.
  - reflexivity.
Qed.

Lemma plain_prompt_parts messages :
  Plain.prompt_parts messages =
  (text "System: " ++ Plain.SERGIO_SYSTEM_PROMPT)
    :: map render_message messages.
Proof. unfold Plain.prompt_parts. apply append_messages_map. Qed.

Lemma rag_prompt_parts sp messages :
  Rag.prompt_parts sp messages =
  (text "System: " ++ sp) :: map render_message messages.
Proof. unfold Rag.prompt_parts. apply append_messages_map. Qed.

(** C5: a message is rendered by its role, [system] as [System: ],
    [assistant] as [Assistant: ] and every other role, a missing one
    included, as [Human: ], each followed by the content (empty when the
    key is missing); rendering is a total function. The prompt of either
    server is its first segment followed by one rendered segment per message,
    joined by two newlines: every segment after the first is preceded by
    exactly that separator. *)
Theorem messages_rendered_by_role_and_joined
    (msg : message) (sp : str) (messages : list message) :
  let content := default [] (msg_content msg) in
  (msg_role msg = Some (text "system") ->
   render_message msg = text "System: " ++ content) /\
  (msg_role msg = Some (text "assistant") ->
   render_message msg = text "Assistant: " ++ content) /\
  (msg_role msg <> Some (text "system") ->
   msg_role msg <> Some (text "assistant") ->
   render_message msg = text "Human: " ++ content) /\
  Plain.prompt messages =
    join (NL ++ NL)
      ((text "System: " ++ Plain.SERGIO_SYSTEM_PROMPT)
         :: map render_message messages) /\
  Rag.prompt sp messages =
    join (NL ++ NL) ((text "System: " ++ sp) :: map render_message messages) /\
  (forall first segs,
      join (NL ++ NL) (first :: segs) =
      first ++ concat (map (fun seg => [10; 10]%N ++ seg) segs)).
Proof.
  cbv zeta. split; [apply render_message_system|].
  split; [apply render_message_assistant|].
  split; [apply render_message_other|].
  split; [unfold Plain.prompt; rewrite plain_prompt_parts; reflexivity|].
  split; [unfold Rag.prompt; rewrite rag_prompt_parts; reflexivity|].
  intros first segs. apply join_cons.
Qed.

Lemma messages_rendered_by_role_and_joined_witness :
  render_message {| msg_role := Some (text "tool");
                    msg_content := Some (text "42") |} = text "Human: 42" /\
  render_message {| msg_role := None; msg_content := None |} = text "Human: ".
Proof.
  split.
  - apply (messages_rendered_by_role_and_joined
             {| msg_role := Some (text "tool");
                msg_content := Some (text "42") |} [] []); discriminate.
  - apply (messages_rendered_by_role_and_joined
             {| msg_role := None; msg_content := None |} [] []); discriminate.
Defined.


(** ** Streaming *)

Lemma call_claude_cli_stream rt prompt :
  let process := subprocess_Popen rt (argv rt prompt) (child_env rt) in
  call_claude_cli rt prompt true =
  stdout_lines process ++
  match popen_end process with
  | StreamClosed => []
  | StreamRaised e => [error_text e]
  | StreamHangs => []
  end.
Proof. reflexivity. Qed.





(** ** [strip] *)

Lemma lstrip_nonspace c s : isspace c = false -> lstrip (c :: s) = c :: s.
Proof. intros H. cbn [lstrip]. rewrite H. reflexivity. Qed.

Lemma rstrip_nonspace s c : isspace c = false -> rstrip (s ++ [c]) = s ++ [c].
Proof.
  intros H. unfold rstrip. rewrite rev_unit, (lstrip_nonspace _ _ H).
  cbn [rev]. rewrite rev_involutive. reflexivity.
Qed.

Lemma lstrip_length s : (length (lstrip s) <= length s)%nat.
Proof.
  induction s as [|c s IH]; cbn [lstrip]; [lia|].
  destruct (isspace c); cbn [length]; lia.
Qed.

Lemma strip_length s : (length (strip s) <= length s)%nat.
Proof.
  unfold strip, rstrip. rewrite length_rev.
  etransitivity; [apply lstrip_length|]. rewrite length_rev.
  apply lstrip_length.
Qed.

Lemma len_strip s : len (strip s) <= len s.
Proof. unfold len. pose proof (strip_length s). lia. Qed.

Lemma strip_bracketed body :
  strip (91%N :: body ++ [93%N]) = 91%N :: body ++ [93%N].
Proof.
  unfold strip. rewrite lstrip_nonspace by reflexivity.
  change (91%N :: body ++ [93%N]) with ((91%N :: body) ++ [93%N]).
  apply rstrip_nonspace. reflexivity.
Qed.

Lemma strip_error_text e : strip (error_text e) = error_text e.
Proof.
  destruct e as [|detail].
  - vm_compute. reflexivity.
  - unfold error_text.
    change (text "[Error: " ++ detail ++ text "]")
      with (91%N :: (text "Error: " ++ detail) ++ [93%N]).
    apply strip_bracketed.
Qed.

(** ** The buffered branch *)

Lemma call_claude_cli_buffered rt prompt :
  call_claude_cli rt prompt false =
  [match subprocess_run rt (argv rt prompt) (child_env rt) 300 with
   | Completed _ stdout => stdout
   | RunRaised e => error_text e
   end].
Proof.
  unfold call_claude_cli.
  destruct (subprocess_run rt (argv rt prompt) (child_env rt) 300);
    reflexivity.
Qed.

Lemma response_text_buffered rt prompt :
  join [] (call_claude_cli rt prompt false) =
  match subprocess_run rt (argv rt prompt) (child_env rt) 300 with
  | Completed _ stdout => stdout
  | RunRaised e => error_text e
  end.
Proof. rewrite call_claude_cli_buffered. reflexivity. Qed.

(** C8 (as the code has it): the buffered branch runs the backend with
    [timeout=300]. When the run times out the invoker yields the fixed text
    [[Error: Request timed out after 300s]], and when starting or running
    the process raises another exception it yields [[Error: ] with the
    detail and a closing bracket; stripping leaves both unchanged. A backend
    that ends with any exit status, zero or not, raises nothing: its standard
    output is the text, with no sentinel. In every case, and in both
    servers, the handler returns a [chat.completion] object whose message
    content is the stripped text and whose [finish_reason] is [stop], never
    an error response. *)
Theorem buffered_backend_errors_become_text rt st model prompt data :
  let outcome := subprocess_run rt (argv rt prompt) (child_env rt) 300 in
  let shown :=
    match outcome with
    | Completed _ stdout => stdout
    | RunRaised TimeoutExpired => text "[Error: Request timed out after 300s]"
    | RunRaised (OtherException detail) =>
        text "[Error: " ++ detail ++ text "]"
    end in
  call_claude_cli rt prompt false = [shown] /\
  (exists body,
      respond rt false model prompt = JsonBody body /\
      jfield "object" body = Some (JStr (text "chat.completion")) /\
      message_content body = Some (strip shown) /\
      finish_reason body = Some (JStr (text "stop")) /\
      (forall returncode stdout,
          outcome = Completed returncode stdout ->
          message_content body = Some (strip stdout)) /\
      (outcome = RunRaised TimeoutExpired ->
       message_content body =
         Some (text "[Error: Request timed out after 300s]")) /\
      (forall detail,
          outcome = RunRaised (OtherException detail) ->
          message_content body =
            Some (text "[Error: " ++ detail ++ text "]"))) /\
  (buffered data ->
   (exists body,
       Plain.chat_completions rt data = JsonBody body /\
       jfield "object" body = Some (JStr (text "chat.completion"))) /\
   (exists body,
       Rag.chat_completions rt st data = JsonBody body /\
       jfield "object" body = Some (JStr (text "chat.completion")))).
Proof.
  cbv zeta. split; [|split].
  - rewrite call_claude_cli_buffered.
    destruct (subprocess_run _ _ _ _) as [rc stdout|[|detail]]; reflexivity.
  - eexists. split; [reflexivity|]. split; [reflexivity|].
    change (message_content (completion_object rt model prompt
              (join [] (call_claude_cli rt prompt false))))
      with (Some (strip (join [] (call_claude_cli rt prompt false)))).
    rewrite response_text_buffered.
    split; [destruct (subprocess_run _ _ _ _) as [rc stdout|[|detail]];
            reflexivity|].
    split; [reflexivity|].
    split; [intros rc stdout ->; reflexivity|].
    split; [intros ->; f_equal; apply (strip_error_text TimeoutExpired)|].
    intros detail ->. f_equal.
    apply (strip_error_text (OtherException detail)).
  - intros Hb. split; eexists.
    + split; [apply plain_chat_completions_buffered, Hb|reflexivity].
    + split; [apply rag_chat_completions_buffered, Hb|reflexivity].
Qed.

Lemma buffered_backend_errors_become_text_witness :
  let rt := failing_runtime TimeoutExpired in
  buffered (buffered_request []) /\
  subprocess_run rt (argv rt (text "hola")) (child_env rt) 300 =
    RunRaised TimeoutExpired /\
  exists body,
    respond rt false (text "claude-max") (text "hola") = JsonBody body /\
    message_content body = Some (text "[Error: Request timed out after 300s]").
Proof.
  split; [reflexivity|]. split; [reflexivity|].
  destruct (buffered_backend_errors_become_text
              (failing_runtime TimeoutExpired) no_store
              (text "claude-max") (text "hola") (buffered_request []))
    as (_ & (body & H & _ & _ & _ & _ & Ht & _) & _).
  exists body. split; [exact H|]. apply Ht. reflexivity.
Defined.

(** C8 as stated fails: a backend that ends with exit status 1 and an empty
    standard output is an execution error of which the caller sees no
    sentinel; the content of the completion is the empty string. *)
Lemma nonzero_exit_gives_no_sentinel :
  let rt := exiting_runtime 1 [] [] StreamClosed in
  let body := body_of (respond rt false (text "claude-max") (text "hola")) in
  subprocess_run rt [CLAUDE_CLI rt; text "--print"; text "hola"]
                 (child_env rt) 300 = Completed 1 [] /\
  message_content body = Some [] /\
  finish_reason body = Some (JStr (text "stop")) /\
  forall detail : str, [] <> text "[Error: " ++ detail ++ text "]".
Proof.
  cbv zeta. split; [reflexivity|]. split; [reflexivity|].
  split; [reflexivity|]. intros detail. discriminate.
Qed.

(** C9: in the buffered branch the message content is the backend text with
    leading and trailing whitespace stripped, and [completion_tokens] is
    computed from the text before stripping (the standard output itself when
    the run completes). The stripped text is never longer, and whenever
    stripping removes four or more characters [completion_tokens] is
    greater than a quarter of the length of the returned content, rounded
    down; the output [Vale.] followed by four newlines is such a case, with
    2 against 1. *)
Theorem completion_tokens_count_unstripped_text rt model prompt :
  let response_text := join [] (call_claude_cli rt prompt false) in
  (forall returncode stdout,
      subprocess_run rt (argv rt prompt) (child_env rt) 300 =
        Completed returncode stdout ->
      response_text = stdout) /\
  (exists body content,
      respond rt false model prompt = JsonBody body /\
      message_content body = Some content /\
      content = strip response_text /\
      usage "completion_tokens" body = Some (len response_text / 4) /\
      len content <= len response_text /\
      (len content + 4 <= len response_text ->
       len content / 4 < len response_text / 4)) /\
  (let padded := text "Vale." ++ [10; 10; 10; 10]%N in
   let body := body_of (respond (echo_runtime padded) false model prompt) in
   message_content body = Some (text "Vale.") /\
   usage "completion_tokens" body = Some 2 /\
   len (text "Vale.") / 4 = 1).
Proof.
  cbv zeta. split; [|split].
  - intros rc stdout H. rewrite response_text_buffered, H. reflexivity.
  - eexists _, _. split; [reflexivity|]. split; [reflexivity|].
    split; [reflexivity|]. split; [reflexivity|].
    split; [apply len_strip|].
    intros H. Z.to_euclidean_division_equations. lia.
  - repeat split.
Qed.

Lemma completion_tokens_count_unstripped_text_witness :
  let rt := echo_runtime (text "    ok") in
  subprocess_run rt (argv rt (text "hola")) (child_env rt) 300 =
    Completed 0 (text "    ok") /\
  join [] (call_claude_cli rt (text "hola") false) = text "    ok".
Proof.
  split; [reflexivity|].
  destruct (completion_tokens_count_unstripped_text
              (echo_runtime (text "    ok")) (text "claude-max")
              (text "hola")) as (H & _).
  apply (H 0). reflexivity.
Defined.

(** ** Retrieval *)

Lemma for_each_append (f : str -> str) docs parts :
  Rag.for_each docs (fun doc => Rag.append (f doc)) parts =
  (parts ++ map f docs, Rag.Ok tt).
Proof.
  revert parts. induction docs as [|doc docs IH]; intros parts.
  - cbn. rewrite app_nil_r. reflexivity.
  - cbn [Rag.for_each map]. unfold mbind, Rag.M_bind, Rag.append at 1.
    rewrite IH, <- app_assoc. reflexivity.
Qed.

Lemma block_with_loop key n hdr cap st q parts :
  match Rag.chroma_collections st !! key with
  | Some coll =>
      r ← Rag.call_query coll q n;
      if Rag.has_documents r then
        Rag.append hdr;;
        Rag.for_each (Rag.documents0 r)
                     (fun doc => Rag.append (slice_to cap doc))
      else mret tt
  | None => mret tt
  end parts =
  labelled_block (Rag.chroma_collections st !! key) q n hdr
                 (map (slice_to cap)) parts.
Proof.
  unfold labelled_block.
  destruct (Rag.chroma_collections st !! key) as [coll|]; [|reflexivity].
  unfold mbind, Rag.M_bind, Rag.call_query.
  destruct (Rag.query coll q n) as [r|detail]; [|reflexivity].
  destruct (Rag.has_documents r); [|reflexivity].
  unfold Rag.append at 1. rewrite for_each_append, <- app_assoc.
  reflexivity.
Qed.

Lemma corpus_lookup_block st q parts :
  Rag.corpus_lookup st q parts =
  labelled_block (Rag.chroma_collections st !! "corpus") q 3
    (text "CONVERSATION EXAMPLES FROM SERGIO:") (map (slice_to 500)) parts.
Proof. apply block_with_loop. Qed.

Lemma personality_lookup_block st q parts :
  Rag.personality_lookup st q parts =
  labelled_block (Rag.chroma_collections st !! "personality") q 2
    (NL ++ text "PERSONALITY FRAMEWORKS:") (map (slice_to 300)) parts.
Proof. apply block_with_loop. Qed.

Lemma rhetorical_lookup_block st q parts :
  Rag.rhetorical_lookup st q parts =
  labelled_block (Rag.chroma_collections st !! "rhetorical") q 1
    (NL ++ text "RHETORICAL DEVICE TO USE:") (first_only 200) parts.
Proof.
  unfold Rag.rhetorical_lookup, labelled_block.
  destruct (Rag.chroma_collections st !! "rhetorical") as [coll|];
    [|reflexivity].
  unfold mbind, Rag.M_bind, Rag.call_query.
  destruct (Rag.query coll q 1) as [r|detail]; [|reflexivity].
  unfold Rag.has_documents, Rag.documents0.
  destruct (Rag.documents r) as [[|[|doc first] docs]|]; try reflexivity.
  cbn. unfold Rag.append. rewrite <- app_assoc. reflexivity.
Qed.

Lemma humor_lookup_block st q parts :
  Rag.humor_lookup st q parts =
  if humor_gate q
  then labelled_block (Rag.chroma_collections st !! "humor") q 2
         (NL ++ text "HUMOR PATTERNS TO DEPLOY:") (map (slice_to 200)) parts
  else (parts, Rag.Ok tt).
Proof.
  unfold Rag.humor_lookup, humor_gate.
  destruct (existsb _ _); [apply block_with_loop|reflexivity].
Qed.

Lemma labelled_block_appends found q n hdr frags :
  appends (labelled_block found q n hdr frags).
Proof.
  intros parts. unfold contribution, labelled_block.
  destruct found as [coll|]; [|cbn; rewrite app_nil_r; reflexivity].
  destruct (Rag.query coll q n) as [r|detail];
    [|cbn; rewrite app_nil_r; reflexivity].
  destruct (Rag.has_documents r); cbn; [|rewrite app_nil_r]; reflexivity.
Qed.

Lemma labelled_block_raise_empty found q n hdr frags :
  raises (labelled_block found q n hdr frags) = true ->
  contribution (labelled_block found q n hdr frags) = [].
Proof.
  unfold raises, contribution, labelled_block.
  destruct found as [coll|]; [|reflexivity].
  destruct (Rag.query coll q n) as [r|detail]; [|reflexivity].
  destruct (Rag.has_documents r); cbn; discriminate.
Qed.

Lemma appends_ext (m m' : Rag.M unit) :
  (forall parts, m parts = m' parts) -> appends m' -> appends m.
Proof.
  intros E H parts. unfold contribution. rewrite !E. apply H.
Qed.

Lemma corpus_lookup_appends st q : appends (Rag.corpus_lookup st q).
Proof.
  eapply appends_ext; [apply corpus_lookup_block|].
  apply labelled_block_appends.
Qed.

Lemma personality_lookup_appends st q : appends (Rag.personality_lookup st q).
Proof.
  eapply appends_ext; [apply personality_lookup_block|].
  apply labelled_block_appends.
Qed.

Lemma rhetorical_lookup_appends st q : appends (Rag.rhetorical_lookup st q).
Proof.
  eapply appends_ext; [apply rhetorical_lookup_block|].
  apply labelled_block_appends.
Qed.

Lemma humor_lookup_appends st q : appends (Rag.humor_lookup st q).
Proof.
  destruct (humor_gate q) eqn:G.
  - eapply appends_ext;
      [intros parts; rewrite humor_lookup_block, G; reflexivity|].
    apply labelled_block_appends.
  - intros parts. unfold contribution. rewrite !humor_lookup_block, G.
    cbn. rewrite app_nil_r. reflexivity.
Qed.

Lemma bind_appends (m k : Rag.M unit) parts :
  appends m ->
  (m;; k) parts =
  match snd (m []) with
  | Rag.Ok _ => k (parts ++ contribution m)
  | Rag.Raise detail => (parts ++ contribution m, Rag.Raise detail)
  end.
Proof.
  intros H. unfold mbind, Rag.M_bind. rewrite (H parts).
  destruct (snd (m [])); reflexivity.
Qed.

Lemma fst_try_except body parts :
  fst (Rag.try_except body parts) = fst (body parts).
Proof.
  unfold Rag.try_except. destruct (body parts) as [parts' [[]|detail]];
    reflexivity.
Qed.

Lemma snd_try_except body parts :
  snd (Rag.try_except body parts) = Rag.Ok tt.
Proof.
  unfold Rag.try_except. destruct (body parts) as [parts' [[]|detail]];
    reflexivity.
Qed.

Lemma context_parts_until_raise st q :
  Rag.context_parts st q =
  until_raise [Rag.corpus_lookup st q; Rag.personality_lookup st q;
               Rag.rhetorical_lookup st q; Rag.humor_lookup st q].
Proof.
  unfold Rag.context_parts, Rag.lookups. rewrite fst_try_except.
  cbn [until_raise]. unfold raises.
  rewrite bind_appends by apply corpus_lookup_appends. cbn [app].
  destruct (snd (Rag.corpus_lookup st q [])) as [[]|d];
    [|cbn; rewrite app_nil_r; reflexivity].
  rewrite bind_appends by apply personality_lookup_appends.
  destruct (snd (Rag.personality_lookup st q [])) as [[]|d];
    [|cbn; rewrite app_nil_r; reflexivity].
  rewrite bind_appends by apply rhetorical_lookup_appends.
  destruct (snd (Rag.rhetorical_lookup st q [])) as [[]|d];
    [|cbn; rewrite app_nil_r, <- app_assoc; reflexivity].
  rewrite (humor_lookup_appends st q). cbn [fst].
  rewrite <- !app_assoc.
  destruct (snd (Rag.humor_lookup st q [])); rewrite app_nil_r; reflexivity.
Qed.

Lemma retrieve_context_join st q :
  Rag.retrieve_context st q =
  if Rag.chroma_client st then join NL (Rag.context_parts st q) else [].
Proof.
  unfold Rag.retrieve_context.
  destruct (Rag.chroma_client st); cbn [negb]; [|reflexivity].
  destruct (Rag.context_parts st q); reflexivity.
Qed.

Lemma labelled_block_raises_iff found q n hdr frags :
  raises (labelled_block found q n hdr frags) = true <->
  exists coll detail,
    found = Some coll /\ Rag.query coll q n = Rag.QueryRaises detail.
Proof.
  unfold raises, labelled_block. split.
  - destruct found as [coll|]; [|discriminate].
    destruct (Rag.query coll q n) as [r|detail] eqn:E.
    + destruct (Rag.has_documents r); discriminate.
    + intros _. exists coll, detail. split; [reflexivity|exact E].
  - intros (coll & detail & -> & ->). reflexivity.
Qed.

Lemma raises_ext {A} (m m' : Rag.M A) :
  m [] = m' [] -> raises m = raises m'.
Proof. unfold raises. intros ->. reflexivity. Qed.

Lemma contribution_ext {A} (m m' : Rag.M A) :
  m [] = m' [] -> contribution m = contribution m'.
Proof. unfold contribution. intros ->. reflexivity. Qed.

Lemma lookup_raises_iff st q key n gate step :
  (key, n, gate, step) ∈ lookup_table st q ->
  (raises step = true <->
   gate = true /\
   exists coll detail,
     Rag.chroma_collections st !! key = Some coll /\
     Rag.query coll q n = Rag.QueryRaises detail).
Proof.
  unfold lookup_table. rewrite !elem_of_cons, elem_of_nil.
  intros [H|[H|[H|[H|[]]]]]; injection H as -> -> -> ->.
  - rewrite (raises_ext (Rag.corpus_lookup st q) (labelled_block _ _ _ _ _)
              (corpus_lookup_block st q [])).
    rewrite labelled_block_raises_iff. tauto.
  - rewrite (raises_ext (Rag.personality_lookup st q) (labelled_block _ _ _ _ _)
              (personality_lookup_block st q [])).
    rewrite labelled_block_raises_iff. tauto.
  - rewrite (raises_ext (Rag.rhetorical_lookup st q) (labelled_block _ _ _ _ _)
              (rhetorical_lookup_block st q [])).
    rewrite labelled_block_raises_iff. tauto.
  - unfold raises. rewrite humor_lookup_block. destruct (humor_gate q).
    + pose proof (labelled_block_raises_iff
                    (Rag.chroma_collections st !! "humor") q 2
                    (NL ++ text "HUMOR PATTERNS TO DEPLOY:")
                    (map (slice_to 200))) as L.
      unfold raises in L. tauto.
    + cbn. split; [discriminate|intros [? _]; discriminate].
Qed.

Lemma lookup_raise_empty st q key n gate step :
  (key, n, gate, step) ∈ lookup_table st q ->
  raises step = true -> contribution step = [].
Proof.
  unfold lookup_table. rewrite !elem_of_cons, elem_of_nil.
  intros [H|[H|[H|[H|[]]]]]; injection H as -> -> -> ->.
  - rewrite (raises_ext (Rag.corpus_lookup st q) (labelled_block _ _ _ _ _)
              (corpus_lookup_block st q [])),
      (contribution_ext (Rag.corpus_lookup st q) (labelled_block _ _ _ _ _)
              (corpus_lookup_block st q [])).
    apply labelled_block_raise_empty.
  - rewrite (raises_ext (Rag.personality_lookup st q) (labelled_block _ _ _ _ _)
              (personality_lookup_block st q [])),
      (contribution_ext (Rag.personality_lookup st q) (labelled_block _ _ _ _ _)
              (personality_lookup_block st q [])).
    apply labelled_block_raise_empty.
  - rewrite (raises_ext (Rag.rhetorical_lookup st q) (labelled_block _ _ _ _ _)
              (rhetorical_lookup_block st q [])),
      (contribution_ext (Rag.rhetorical_lookup st q) (labelled_block _ _ _ _ _)
              (rhetorical_lookup_block st q [])).
    apply labelled_block_raise_empty.
  - unfold raises, contribution. rewrite !humor_lookup_block.
    destruct (humor_gate q); [apply labelled_block_raise_empty|reflexivity].
Qed.

Lemma rag_chat_completions_no_error rt st data :
  Rag.chat_completions rt st data <> ServerError.
Proof.
  unfold Rag.chat_completions. rewrite rag_system_prompt. unfold respond.
  destruct (default false (req_stream data)); discriminate.
Qed.

(** C2 (as the code has it): the four lookups run inside one [try], in the
    order corpus, personality, rhetorical, humor. The parts of the context
    block are what the lookups contribute in that order up to the first
    lookup whose query raises; that lookup contributes nothing and no later
    lookup is made, so a raising corpus query leaves the context empty. The
    exception never leaves [retrieve_context], and the handler never answers
    with an error response. *)
Theorem retrieval_abandoned_at_first_raise rt st q data :
  Rag.context_parts st q = until_raise (map snd (lookup_table st q)) /\
  (forall key n gate step,
      (key, n, gate, step) ∈ lookup_table st q ->
      (raises step = true <->
       gate = true /\
       exists coll detail,
         Rag.chroma_collections st !! key = Some coll /\
         Rag.query coll q n = Rag.QueryRaises detail) /\
      (raises step = true -> contribution step = [])) /\
  (raises (Rag.corpus_lookup st q) = true -> Rag.context_parts st q = []) /\
  snd (Rag.try_except (Rag.lookups st q) []) = Rag.Ok tt /\
  Rag.retrieve_context st q =
    (if Rag.chroma_client st then join NL (Rag.context_parts st q) else []) /\
  Rag.chat_completions rt st data <> ServerError.
Proof.
  split; [apply context_parts_until_raise|].
  split; [intros key n gate step H; split;
          [apply lookup_raises_iff, H|apply (lookup_raise_empty _ _ _ _ _ _ H)]|].
  split.
  - intros H. rewrite context_parts_until_raise. cbn [until_raise].
    rewrite H, app_nil_r.
    apply (lookup_raise_empty st q "corpus" 3%nat true); [|exact H].
    unfold lookup_table. apply list_elem_of_here.
  - split; [apply snd_try_except|].
    split; [apply retrieve_context_join|apply rag_chat_completions_no_error].
Qed.

Lemma retrieval_abandoned_at_first_raise_witness :
  let q := text "tengo mucha ansiedad" in
  raises (Rag.corpus_lookup broken_corpus_store q) = true /\
  Rag.context_parts broken_corpus_store q = [].
Proof.
  split; [reflexivity|].
  apply (retrieval_abandoned_at_first_raise
           (echo_runtime []) broken_corpus_store
           (text "tengo mucha ansiedad") (buffered_request [])).
  reflexivity.
Defined.

(** C2 as stated fails: when the corpus query raises, the personality
    collection, whose own query returns a document and which alone would
    contribute a header and that document, leaves nothing in the context
    block; the block is empty and the sentinel takes its place. *)
Lemma personality_results_lost_when_corpus_raises :
  let st := broken_corpus_store in
  let q := text "tengo mucha ansiedad" in
  (exists coll,
      Rag.chroma_collections st !! "corpus" = Some coll /\
      Rag.query coll q 3 = Rag.QueryRaises (text "collection is gone")) /\
  (exists coll,
      Rag.chroma_collections st !! "personality" = Some coll /\
      Rag.query coll q 2 =
        Rag.QueryReturns
          {| Rag.documents := Some [[text "Identity=Interaction"]] |}) /\
  contribution (Rag.personality_lookup st q) =
    [NL ++ text "PERSONALITY FRAMEWORKS:"; text "Identity=Interaction"] /\
  Rag.context_parts st q = [] /\
  Rag.retrieve_context st q = [] /\
  Rag.context_block st [user_says q] = Rag.NO_CONTEXT.
Proof.
  cbv zeta. split; [eexists; split; vm_compute; reflexivity|].
  split; [eexists; split; vm_compute; reflexivity|].
  repeat split; vm_compute; reflexivity.
Qed.

(** ** Truncation *)

Lemma slice_to_length cap (doc : str) : (length (slice_to cap doc) <= cap)%nat.
Proof. unfold slice_to. rewrite length_take. lia. Qed.

Lemma map_cuts_at cap : cuts_at cap (map (slice_to cap)).
Proof.
  intros docs s H. apply list_elem_of_In, in_map_iff in H.
  destruct H as (doc & <- & H). exists doc.
  split; [apply list_elem_of_In, H|reflexivity].
Qed.

Lemma first_only_cuts_at cap : cuts_at cap (first_only cap).
Proof.
  intros [|doc docs] s H; cbn in H.
  - apply elem_of_nil in H. destruct H.
  - apply elem_of_cons in H. destruct H as [->|H].
    + exists doc. split; [apply list_elem_of_here|reflexivity].
    + apply elem_of_nil in H. destruct H.
Qed.

Lemma labelled_block_elem found q n hdr cap frags s :
  cuts_at cap frags ->
  s ∈ contribution (labelled_block found q n hdr frags) ->
  s = hdr \/
  exists coll r doc,
    found = Some coll /\ Rag.query coll q n = Rag.QueryReturns r /\
    doc ∈ Rag.documents0 r /\ s = slice_to cap doc.
Proof.
  intros Hc. unfold contribution, labelled_block.
  destruct found as [coll|]; [|intros H; apply elem_of_nil in H; destruct H].
  destruct (Rag.query coll q n) as [r|detail] eqn:E;
    [|intros H; apply elem_of_nil in H; destruct H].
  destruct (Rag.has_documents r); cbn [fst app];
    [|intros H; apply elem_of_nil in H; destruct H].
  intros H. apply elem_of_cons in H. destruct H as [->|H]; [left; reflexivity|].
  right. destruct (Hc _ _ H) as (doc & Hd & ->).
  exists coll, r, doc. repeat split; assumption.
Qed.

Lemma elem_of_until_raise steps s :
  s ∈ until_raise steps ->
  exists step, step ∈ steps /\ s ∈ contribution step.
Proof.
  induction steps as [|step steps IH]; cbn [until_raise]; intros H.
  - apply elem_of_nil in H. destruct H.
  - apply elem_of_app in H. destruct H as [H|H].
    + exists step. split; [apply list_elem_of_here|exact H].
    + destruct (raises step); [apply elem_of_nil in H; destruct H|].
      destruct (IH H) as (step' & Hin & Hs).
      exists step'. split; [apply list_elem_of_further, Hin|exact Hs].
Qed.

(** C7: every part of the context block is one of the four headers or a
    document returned by a collection for the query, cut to the cap of that
    collection: 500 characters for corpus, 300 for personality, 200 for
    rhetorical and for humor. A fragment is never longer than its cap. *)
Theorem fragments_within_caps st q s :
  s ∈ Rag.context_parts st q ->
  s ∈ headers \/
  exists key n cap coll r doc,
    (key, n, cap) ∈ truncation_caps /\
    Rag.chroma_collections st !! key = Some coll /\
    Rag.query coll q n = Rag.QueryReturns r /\
    doc ∈ Rag.documents0 r /\
    s = slice_to cap doc /\
    (length s <= cap)%nat.
Proof.
  intros H. rewrite context_parts_until_raise in H.
  apply elem_of_until_raise in H. destruct H as (step & Hin & Hs).
  assert (forall key n cap hdr frags,
             (key, n, cap) ∈ truncation_caps -> hdr ∈ headers ->
             cuts_at cap frags ->
             s ∈ contribution
                   (labelled_block (Rag.chroma_collections st !! key)
                                   q n hdr frags) ->
             s ∈ headers \/
             exists key n cap coll r doc,
               (key, n, cap) ∈ truncation_caps /\
               Rag.chroma_collections st !! key = Some coll /\
               Rag.query coll q n = Rag.QueryReturns r /\
               doc ∈ Rag.documents0 r /\
               s = slice_to cap doc /\
               (length s <= cap)%nat) as Block.
  { intros key n cap hdr frags Hk Hh Hc Hb.
    destruct (labelled_block_elem _ _ _ _ _ _ _ Hc Hb)
      as [->|(coll & r & doc & Hf & Hq & Hd & ->)]; [left; exact Hh|].
    right. exists key, n, cap, coll, r, doc.
    repeat split; try assumption. apply slice_to_length. }
  rewrite !elem_of_cons, elem_of_nil in Hin.
  destruct Hin as [->|[->|[->|[->|[]]]]].
  - rewrite (contribution_ext (Rag.corpus_lookup st q)
               (labelled_block _ _ _ _ _) (corpus_lookup_block st q [])) in Hs.
    apply (Block _ _ 500%nat _ _) in Hs; [exact Hs| | |apply map_cuts_at];
      unfold truncation_caps, headers; rewrite !elem_of_cons; tauto.
  - rewrite (contribution_ext (Rag.personality_lookup st q)
               (labelled_block _ _ _ _ _)
               (personality_lookup_block st q [])) in Hs.
    apply (Block _ _ 300%nat _ _) in Hs; [exact Hs| | |apply map_cuts_at];
      unfold truncation_caps, headers; rewrite !elem_of_cons; tauto.
  - rewrite (contribution_ext (Rag.rhetorical_lookup st q)
               (labelled_block _ _ _ _ _)
               (rhetorical_lookup_block st q [])) in Hs.
    apply (Block _ _ 200%nat _ _) in Hs;
      [exact Hs| | |apply first_only_cuts_at];
      unfold truncation_caps, headers; rewrite !elem_of_cons; tauto.
  - unfold contribution in Hs. rewrite humor_lookup_block in Hs.
    destruct (humor_gate q); [|apply elem_of_nil in Hs; destruct Hs].
    apply (Block "humor"%string _ 200%nat _ _) in Hs;
      [exact Hs| | |apply map_cuts_at];
      unfold truncation_caps, headers; rewrite !elem_of_cons; tauto.
Qed.

Lemma fragments_within_caps_witness :
  let s := repeat 97%N 500 in
  s ∈ Rag.context_parts long_document_store (text "hola") /\
  (s ∈ headers \/
   exists key n cap coll r doc,
     (key, n, cap) ∈ truncation_caps /\
     Rag.chroma_collections long_document_store !! key = Some coll /\
     Rag.query coll (text "hola") n = Rag.QueryReturns r /\
     doc ∈ Rag.documents0 r /\
     s = slice_to cap doc /\
     (length s <= cap)%nat).
Proof.
  assert (repeat 97%N 500
            ∈ Rag.context_parts long_document_store (text "hola")) as H.
  { apply list_elem_of_In. vm_compute. right. left. reflexivity. }
  split; [exact H|].
  exact (fragments_within_caps long_document_store (text "hola") _ H).
Defined.

(** ** The retrieval query and the sentinel *)

Lemma first_user_content_skip skipped rest :
  Forall not_user skipped ->
  Rag.first_user_content (skipped ++ rest) = Rag.first_user_content rest.
Proof.
  induction 1 as [|msg skipped Hm _ IH]; [reflexivity|].
  cbn [app Rag.first_user_content].
  destruct (decide (msg_role msg = Some (text "user"))) as [E|_];
    [destruct (Hm E)|exact IH].
Qed.

Lemma user_message_last before msg after :
  msg_role msg = Some (text "user") ->
  Forall not_user after ->
  Rag.user_message (before ++ msg :: after) = default [] (msg_content msg).
Proof.
  intros Hu Ha. unfold Rag.user_message.
  rewrite rev_app_distr. cbn [rev]. rewrite <- app_assoc.
  rewrite first_user_content_skip by (apply Forall_rev, Ha).
  cbn [app Rag.first_user_content].
  destruct (decide (msg_role msg = Some (text "user"))) as [_|N];
    [reflexivity|destruct (N Hu)].
Qed.

Lemma user_message_none messages :
  Forall not_user messages -> Rag.user_message messages = [].
Proof.
  intros H. unfold Rag.user_message.
  rewrite <- (app_nil_r (rev messages)).
  rewrite first_user_content_skip by (apply Forall_rev, H). reflexivity.
Qed.

Lemma user_message_skips_last messages msg :
  not_user msg ->
  Rag.user_message (messages ++ [msg]) = Rag.user_message messages.
Proof.
  intros H. unfold Rag.user_message. rewrite rev_unit.
  cbn [Rag.first_user_content].
  destruct (decide (msg_role msg = Some (text "user"))) as [E|_];
    [destruct (H E)|reflexivity].
Qed.

Lemma context_block_without_query st messages :
  Rag.user_message messages = [] ->
  Rag.context_block st messages = Rag.NO_CONTEXT.
Proof.
  unfold Rag.context_block, Rag.personality_context. intros ->. reflexivity.
Qed.

Lemma context_block_without_parts st messages :
  Rag.chroma_client st = false \/
  Rag.context_parts st (Rag.user_message messages) = [] ->
  Rag.context_block st messages = Rag.NO_CONTEXT.
Proof.
  unfold Rag.context_block, Rag.personality_context. intros H.
  destruct (truthy (Rag.user_message messages)); [|reflexivity].
  rewrite retrieve_context_join.
  destruct H as [->| ->]; [reflexivity|].
  destruct (Rag.chroma_client st); reflexivity.
Qed.

Lemma labelled_block_nothing st key q n hdr frags :
  returns_nothing st q ->
  labelled_block (Rag.chroma_collections st !! key) q n hdr frags [] =
  ([], Rag.Ok tt).
Proof.
  intros H. unfold labelled_block.
  destruct (Rag.chroma_collections st !! key) as [coll|] eqn:E; [|reflexivity].
  destruct (H key coll n E) as (r & -> & ->). reflexivity.
Qed.

Lemma context_parts_nothing st q :
  returns_nothing st q -> Rag.context_parts st q = [].
Proof.
  intros H. rewrite context_parts_until_raise.
  cbn [until_raise]. unfold raises, contribution.
  rewrite corpus_lookup_block, personality_lookup_block,
    rhetorical_lookup_block, humor_lookup_block.
  rewrite !(labelled_block_nothing _ _ _ _ _ _ H).
  destruct (humor_gate q); reflexivity.
Qed.

Lemma no_collections_returns_nothing st q :
  Rag.chroma_collections st = ∅ -> returns_nothing st q.
Proof.
  intros E key coll n H. rewrite E, lookup_empty in H. discriminate.
Qed.

(** C6: when retrieval produces no fragment (no client, no collection
    loaded, every loaded collection answering without documents, or an empty
    list of parts for any other reason) the context block is exactly
    [No additional context retrieved.], the system prompt is the persona
    text, a newline and that sentence, and the handler goes on to answer
    with the prompt built from it. *)
Theorem empty_retrieval_gives_sentinel rt st data :
  let messages := default [] (req_messages data) in
  let q := Rag.user_message messages in
  Rag.chroma_client st = false \/
  Rag.chroma_collections st = ∅ \/
  returns_nothing st q \/
  Rag.context_parts st q = [] ->
  Rag.context_block st messages = text "No additional context retrieved." /\
  Rag.system_prompt st messages =
    Some (SERGIO_PERSONA ++ NL ++ text "No additional context retrieved.") /\
  Rag.chat_completions rt st data =
    respond rt (default false (req_stream data))
      (default (text "sergio-rag") (req_model data))
      (Rag.prompt
         (SERGIO_PERSONA ++ NL ++ text "No additional context retrieved.")
         messages).
Proof.
  cbv zeta. intros H.
  assert (Rag.context_block st (default [] (req_messages data)) =
          Rag.NO_CONTEXT) as E.
  { apply context_block_without_parts.
    destruct H as [H|[H|[H|H]]]; [left; exact H|right..].
    - apply context_parts_nothing, no_collections_returns_nothing, H.
    - apply context_parts_nothing, H.
    - exact H. }
  split; [exact E|].
  split; [rewrite rag_system_prompt, E; reflexivity|].
  unfold Rag.chat_completions. rewrite rag_system_prompt, E. reflexivity.
Qed.

Lemma empty_retrieval_gives_sentinel_witness :
  Rag.chroma_client no_store = false /\
  Rag.context_block no_store [user_says (text "tengo mucha ansiedad")] =
    text "No additional context retrieved.".
Proof.
  split; [reflexivity|].
  apply (empty_retrieval_gives_sentinel (echo_runtime [])
           no_store
           (buffered_request [user_says (text "tengo mucha ansiedad")])).
  left. reflexivity.
Defined.

(** C10: the retrieval query is the content of the last message whose role
    is exactly [user] (empty when its content is missing), and it is empty
    when there is no such message. A message whose role is missing or
    anything else is rendered as [Human: ] and yet never chosen. A non-empty
    query is the string handed to [retrieve_context]; with an empty query
    retrieval is not called and the context block is the sentinel whatever
    the store holds. *)
Theorem retrieval_query_is_last_user_message st messages :
  (forall before msg after,
      messages = before ++ msg :: after ->
      msg_role msg = Some (text "user") ->
      Forall not_user after ->
      Rag.user_message messages = default [] (msg_content msg)) /\
  (Forall not_user messages -> Rag.user_message messages = []) /\
  (forall msg,
      msg_role msg <> Some (text "user") ->
      msg_role msg <> Some (text "system") ->
      msg_role msg <> Some (text "assistant") ->
      render_message msg = text "Human: " ++ default [] (msg_content msg) /\
      Rag.user_message (messages ++ [msg]) = Rag.user_message messages) /\
  (Rag.user_message messages <> [] ->
   Rag.personality_context st messages =
     Rag.retrieve_context st (Rag.user_message messages)) /\
  (Rag.user_message messages = [] ->
   forall st',
     Rag.personality_context st' messages = [] /\
     Rag.context_block st' messages =
       text "No additional context retrieved.").
Proof.
  split; [intros before msg after ->; apply user_message_last|].
  split; [apply user_message_none|].
  split; [intros msg Hu Hs Ha; split;
          [apply render_message_other; assumption
          |apply user_message_skips_last, Hu]|].
  split.
  - unfold Rag.personality_context.
    destruct (Rag.user_message messages); [congruence|reflexivity].
  - intros E st'. split; [|apply context_block_without_query, E].
    unfold Rag.personality_context. rewrite E. reflexivity.
Qed.

Lemma retrieval_query_is_last_user_message_witness :
  let unknown := {| msg_role := None; msg_content := Some (text "sin rol") |} in
  Rag.user_message ([user_says (text "hola")] ++ [unknown]) =
    Rag.user_message [user_says (text "hola")] /\
  Rag.context_block long_document_store [user_says []] =
    text "No additional context retrieved.".
Proof.
  split.
  - destruct (retrieval_query_is_last_user_message
                no_store [user_says (text "hola")]) as (_ & _ & H & _).
    apply H; discriminate.
  - destruct (retrieval_query_is_last_user_message
                no_store [user_says []]) as (_ & _ & _ & _ & H).
    apply H. reflexivity.
Defined.

(** * Further properties of the code *)

(** ** The environment of the backend process *)

(** X1: the backend never sees [ANTHROPIC_API_KEY], always sees
    [CLAUDE_USE_SUBSCRIPTION=true], and sees every other variable of the
    server's environment unchanged. *)
Theorem child_env_forces_subscription rt :
  child_env rt !! "ANTHROPIC_API_KEY" = None /\
  child_env rt !! "CLAUDE_USE_SUBSCRIPTION" = Some (text "true") /\
  (forall name : string,
      name <> "ANTHROPIC_API_KEY"%string ->
      name <> "CLAUDE_USE_SUBSCRIPTION"%string ->
      child_env rt !! name = os_environ rt !! name).
Proof.
  unfold child_env. split; [|split].
  - rewrite lookup_insert_ne by discriminate.
    case_bool_decide as H; [apply lookup_delete_eq|].
    apply eq_None_not_Some, H.
  - apply lookup_insert_eq.
  - intros name Hk Hs. rewrite lookup_insert_ne by congruence.
    case_bool_decide; [|reflexivity].
    apply lookup_delete_ne. congruence.
Qed.

Lemma child_env_forces_subscription_witness :
  let rt := failing_runtime TimeoutExpired in
  os_environ rt !! "ANTHROPIC_API_KEY" = Some (text "sk-test") /\
  child_env rt !! "ANTHROPIC_API_KEY" = None /\
  child_env rt !! "PATH" = os_environ rt !! "PATH".
Proof.
  split; [reflexivity|].
  destruct (child_env_forces_subscription (failing_runtime TimeoutExpired))
    as (H1 & _ & H3).
  split; [exact H1|]. apply H3; discriminate.
Defined.

(** ** The content of a buffered completion *)

Lemma lstrip_split s :
  exists ws, s = ws ++ lstrip s /\ whitespace ws.
Proof.
  induction s as [|c s (ws & E & W)].
  - exists []. split; [reflexivity|constructor].
  - cbn [lstrip]. destruct (isspace c) eqn:Hc.
    + exists (c :: ws). split; [cbn; f_equal; exact E|].
      constructor; assumption.
    + exists []. split; [reflexivity|constructor].
Qed.

Lemma lstrip_head s c rest : lstrip s = c :: rest -> isspace c = false.
Proof.
  induction s as [|a s IH]; cbn [lstrip]; [discriminate|].
  destruct (isspace a) eqn:Ha; [exact IH|].
  intros E. injection E as -> _. exact Ha.
Qed.

Lemma strip_split s :
  exists before after,
    s = before ++ strip s ++ after /\ whitespace before /\ whitespace after.
Proof.
  destruct (lstrip_split s) as (w1 & E1 & W1).
  destruct (lstrip_split (rev (lstrip s))) as (w2 & E2 & W2).
  exists w1, (rev w2). split; [|split; [exact W1|apply Forall_rev, W2]].
  rewrite E1 at 1. f_equal. unfold strip, rstrip.
  rewrite <- rev_app_distr, <- E2, rev_involutive. reflexivity.
Qed.

Lemma strip_last s rest c : strip s = rest ++ [c] -> isspace c = false.
Proof.
  unfold strip, rstrip. intros E.
  apply (f_equal (@rev N)) in E. rewrite rev_involutive, rev_unit in E.
  apply (lstrip_head _ _ _ E).
Qed.

Lemma strip_head s c rest : strip s = c :: rest -> isspace c = false.
Proof.
  intros E.
  destruct (lstrip_split (rev (lstrip s))) as (w2 & E2 & _).
  apply (f_equal (@rev N)) in E2.
  rewrite rev_involutive, rev_app_distr in E2.
  change (rev (lstrip (rev (lstrip s)))) with (strip s) in E2.
  rewrite E in E2. cbn in E2. apply (lstrip_head _ _ _ E2).
Qed.

(** X2: the content of a buffered completion is the backend text without a
    run of whitespace at its start and one at its end, and the content
    itself neither starts nor ends with a whitespace character; a backend
    text of whitespace only gives the empty content. *)
Theorem content_has_no_outer_whitespace rt model prompt :
  exists body content before after,
    respond rt false model prompt = JsonBody body /\
    message_content body = Some content /\
    join [] (call_claude_cli rt prompt false) = before ++ content ++ after /\
    whitespace before /\ whitespace after /\
    (forall c rest, content = c :: rest -> isspace c = false) /\
    (forall rest c, content = rest ++ [c] -> isspace c = false) /\
    (whitespace (join [] (call_claude_cli rt prompt false)) -> content = []).
Proof.
  destruct (strip_split (join [] (call_claude_cli rt prompt false)))
    as (before & after & E & Wb & Wa).
  exists (completion_object rt model prompt
            (join [] (call_claude_cli rt prompt false))),
    (strip (join [] (call_claude_cli rt prompt false))), before, after.
  split; [reflexivity|]. split; [reflexivity|]. split; [exact E|].
  split; [exact Wb|]. split; [exact Wa|].
  split; [intros c rest H; apply (strip_head _ _ _ H)|].
  split; [intros rest c H; apply (strip_last _ _ _ H)|].
  intros W. destruct (strip _) as [|c rest] eqn:S; [reflexivity|].
  pose proof (strip_head _ _ _ S) as Hc.
  rewrite E in W. apply Forall_app in W. destruct W as [_ W].
  apply Forall_app in W. destruct W as [W _].
  apply Forall_cons in W. destruct W as [W _]. congruence.
Qed.

Lemma content_has_no_outer_whitespace_witness :
  let padded := [32; 9]%N ++ text "vale" ++ [10]%N in
  message_content
    (body_of (respond (echo_runtime padded) false (text "m") (text "p"))) =
    Some (text "vale") /\
  isspace 118%N = false.
Proof.
  split; [reflexivity|].
  destruct (content_has_no_outer_whitespace
              (echo_runtime ([32; 9]%N ++ text "vale" ++ [10]%N))
              (text "m") (text "p"))
    as (body & content & before & after & Hr & Hc & _ & _ & _ & Hh & _).
  injection Hr as <-. injection Hc as <-.
  apply (Hh 118%N (text "ale")). reflexivity.
Defined.

(** ** The shape of the prompt *)

Lemma join_segments first messages :
  join (NL ++ NL) (first :: map render_message messages) =
  first ++ message_segments messages.
Proof.
  rewrite join_cons, map_map. unfold message_segments. reflexivity.
Qed.

Lemma plain_prompt_closed messages :
  Plain.prompt messages =
  (text "System: " ++ SERGIO_PERSONA) ++ message_segments messages.
Proof.
  unfold Plain.prompt. rewrite plain_prompt_parts. apply join_segments.
Qed.

Lemma rag_prompt_closed sp messages :
  Rag.prompt sp messages =
  (text "System: " ++ sp) ++ message_segments messages.
Proof.
  unfold Rag.prompt. rewrite rag_prompt_parts. apply join_segments.
Qed.

Lemma message_segments_app ms1 ms2 :
  message_segments (ms1 ++ ms2) = message_segments ms1 ++ message_segments ms2.
Proof. unfold message_segments. rewrite map_app. apply concat_app. Qed.

(** X3: a conversation that grows keeps its prompt and extends it: the prompt
    of [ms1 ++ ms2] is the prompt of [ms1] followed, for each message of
    [ms2] in order, by two newlines and its rendering. With no message at
    all the prompt is the first segment alone, with no separator after it. *)
Theorem prompt_grows_with_the_conversation sp ms1 ms2 :
  Plain.prompt (ms1 ++ ms2) = Plain.prompt ms1 ++ message_segments ms2 /\
  Rag.prompt sp (ms1 ++ ms2) = Rag.prompt sp ms1 ++ message_segments ms2 /\
  Plain.prompt [] = text "System: " ++ SERGIO_PERSONA /\
  Rag.prompt sp [] = text "System: " ++ sp.
Proof.
  rewrite !plain_prompt_closed, !rag_prompt_closed, message_segments_app.
  rewrite !app_assoc. repeat split; cbn; rewrite ?app_nil_r; reflexivity.
Qed.

Lemma len_app (a b : str) : len (a ++ b) = len a + len b.
Proof. unfold len. rewrite length_app. lia. Qed.

Lemma len_render_message msg :
  len (render_message msg) =
  tag_length (msg_role msg) + len (default [] (msg_content msg)).
Proof.
  unfold tag_length.
  destruct (decide (msg_role msg = Some (text "system"))) as [E|N1].
  - rewrite (render_message_system _ E), len_app. reflexivity.
  - destruct (decide (msg_role msg = Some (text "assistant"))) as [E|N2].
    + rewrite (render_message_assistant _ E), len_app. reflexivity.
    + rewrite (render_message_other _ N1 N2), len_app. reflexivity.
Qed.

Lemma len_message_segments messages :
  len (message_segments messages) =
  foldr (fun msg total => message_cost msg + total) 0 messages.
Proof.
  induction messages as [|msg messages IH]; [reflexivity|].
  unfold message_segments in *. cbn [map concat foldr].
  rewrite !len_app, IH, len_render_message. unfold message_cost.
  change (len NL) with 1. lia.
Qed.

Lemma message_cost_nonneg msg : 0 <= message_cost msg.
Proof.
  unfold message_cost, tag_length.
  pose proof (len_nonneg (default [] (msg_content msg))).
  repeat case_decide; lia.
Qed.

Lemma message_costs_nonneg messages :
  0 <= foldr (fun msg total => message_cost msg + total) 0 messages.
Proof.
  induction messages as [|msg messages IH]; cbn [foldr]; [lia|].
  pose proof (message_cost_nonneg msg). lia.
Qed.

(** X4: the prompt of the plain server has 2013 characters for its first
    segment and, for each message, 2 for the separator, 8, 11 or 7 for the
    tag of a system, assistant or other message, and the length of the
    content. Hence [prompt_tokens] of a buffered completion of that server
    is at least 503. *)
Theorem plain_prompt_length rt data :
  let messages := default [] (req_messages data) in
  len (Plain.prompt messages) =
    2013 + foldr (fun msg total => message_cost msg + total) 0 messages /\
  (buffered data ->
   exists tokens,
     usage "prompt_tokens" (body_of (Plain.chat_completions rt data)) =
       Some tokens /\
     tokens = len (Plain.prompt messages) / 4 /\
     503 <= tokens).
Proof.
  cbv zeta.
  assert (len (Plain.prompt (default [] (req_messages data))) =
          2013 + foldr (fun msg total => message_cost msg + total) 0
                       (default [] (req_messages data))) as E.
  { rewrite plain_prompt_closed, len_app, len_message_segments.
    f_equal. }
  split; [exact E|].
  intros Hb. rewrite (plain_chat_completions_buffered _ _ Hb).
  eexists. split; [reflexivity|]. split; [reflexivity|].
  rewrite E.
  pose proof (message_costs_nonneg (default [] (req_messages data))) as Hn.
  Z.to_euclidean_division_equations. lia.
Qed.

Lemma plain_prompt_length_witness :
  let data := buffered_request [user_says (text "hola")] in
  buffered data /\
  len (Plain.prompt [user_says (text "hola")]) = 2013 + (2 + 7 + 4 + 0) /\
  exists tokens,
    usage "prompt_tokens"
      (body_of (Plain.chat_completions (echo_runtime []) data)) = Some tokens /\
    503 <= tokens.
Proof.
  split; [reflexivity|].
  destruct (plain_prompt_length (echo_runtime [])
              (buffered_request [user_says (text "hola")])) as (E & H).
  split; [exact E|].
  destruct (H eq_refl) as (tokens & Hu & _ & Hb).
  exists tokens. split; [exact Hu|exact Hb].
Defined.

Lemma render_message_extend role content extra :
  render_message {| msg_role := role; msg_content := Some (content ++ extra) |}
  = render_message {| msg_role := role; msg_content := Some content |}
    ++ extra.
Proof.
  unfold render_message. cbn [msg_role msg_content from_option id].
  repeat case_decide; rewrite <- app_assoc; reflexivity.
Qed.

Lemma render_message_default msg :
  render_message {| msg_role := msg_role msg;
                    msg_content := Some (default [] (msg_content msg)) |} =
  render_message msg.
Proof. reflexivity. Qed.

(** X5: the prompt does not keep the boundaries of the messages. Two
    adjacent messages give the same prompt as one message with the role of
    the first whose content is the content of the first, two newlines and
    the rendering of the second; so the content of a user message can stand
    for a following system or assistant segment. *)
Theorem content_can_stand_for_a_segment sp before first second after :
  let merged :=
    {| msg_role := msg_role first;
       msg_content :=
         Some (default [] (msg_content first)
               ++ NL ++ NL ++ render_message second) |} in
  Plain.prompt (before ++ merged :: after) =
    Plain.prompt (before ++ first :: second :: after) /\
  Rag.prompt sp (before ++ merged :: after) =
    Rag.prompt sp (before ++ first :: second :: after).
Proof.
  cbv zeta.
  assert (forall merged,
             render_message merged =
               render_message first ++ NL ++ NL ++ render_message second ->
             message_segments (before ++ merged :: after) =
             message_segments (before ++ first :: second :: after)) as H.
  { intros merged E. rewrite !message_segments_app. f_equal.
    unfold message_segments. cbn [map concat]. rewrite E.
    rewrite <- !app_assoc. reflexivity. }
  rewrite !plain_prompt_closed, !rag_prompt_closed.
  rewrite H; [split; reflexivity|].
  rewrite render_message_extend, render_message_default. reflexivity.
Qed.

(** X6: the two servers build the same prompt except for the context block:
    where the plain server has the persona segment, the server with
    retrieval has the persona segment, a newline and the context block; the
    text the messages add is the same. *)
Theorem servers_differ_by_the_context_block st messages :
  let persona_segment := text "System: " ++ SERGIO_PERSONA in
  Plain.prompt messages = persona_segment ++ message_segments messages /\
  exists sp,
    Rag.system_prompt st messages = Some sp /\
    Rag.prompt sp messages =
      persona_segment ++ NL ++ Rag.context_block st messages
      ++ message_segments messages.
Proof.
  cbv zeta. split; [apply plain_prompt_closed|].
  eexists. split; [apply rag_system_prompt|].
  rewrite rag_prompt_closed, <- !app_assoc. reflexivity.
Qed.

(** ** The order and the shape of the context *)

Lemma labelled_block_contribution st key q n hdr frags :
  contribution
    (labelled_block (Rag.chroma_collections st !! key) q n hdr frags) =
  block st key q n hdr frags.
Proof.
  unfold contribution, labelled_block, block.
  destruct (Rag.chroma_collections st !! key) as [coll|]; [|reflexivity].
  destruct (Rag.query coll q n) as [r|detail]; [|reflexivity].
  destruct (Rag.has_documents r); reflexivity.
Qed.

Lemma corpus_contribution st q :
  contribution (Rag.corpus_lookup st q) =
  block st "corpus" q 3 (text "CONVERSATION EXAMPLES FROM SERGIO:")
        (map (slice_to 500)).
Proof.
  rewrite (contribution_ext (Rag.corpus_lookup st q)
             (labelled_block _ _ _ _ _) (corpus_lookup_block st q [])).
  apply labelled_block_contribution.
Qed.

Lemma personality_contribution st q :
  contribution (Rag.personality_lookup st q) =
  block st "personality" q 2 (NL ++ text "PERSONALITY FRAMEWORKS:")
        (map (slice_to 300)).
Proof.
  rewrite (contribution_ext (Rag.personality_lookup st q)
             (labelled_block _ _ _ _ _) (personality_lookup_block st q [])).
  apply labelled_block_contribution.
Qed.

Lemma rhetorical_contribution st q :
  contribution (Rag.rhetorical_lookup st q) =
  block st "rhetorical" q 1 (NL ++ text "RHETORICAL DEVICE TO USE:")
        (first_only 200).
Proof.
  rewrite (contribution_ext (Rag.rhetorical_lookup st q)
             (labelled_block _ _ _ _ _) (rhetorical_lookup_block st q [])).
  apply labelled_block_contribution.
Qed.

Lemma humor_contribution st q :
  contribution (Rag.humor_lookup st q) =
  if humor_gate q
  then block st "humor" q 2 (NL ++ text "HUMOR PATTERNS TO DEPLOY:")
             (map (slice_to 200))
  else [].
Proof.
  unfold contribution. rewrite humor_lookup_block.
  destruct (humor_gate q); [|reflexivity].
  apply labelled_block_contribution.
Qed.

Lemma lookup_does_not_raise st q key n gate step :
  no_query_raises st q ->
  (key, n, gate, step) ∈ lookup_table st q ->
  raises step = false.
Proof.
  intros Hn Hin. destruct (raises step) eqn:R; [|reflexivity].
  apply (lookup_raises_iff _ _ _ _ _ _ Hin) in R.
  destruct R as (_ & coll & detail & Hl & Hq).
  destruct (Hn _ _ _ _ Hl Hq).
Qed.

(** X7: when no query raises, the parts of the context are the block of the
    corpus collection, then that of the personality collection, then that of
    the rhetorical collection, then, if the query passes the keyword test,
    that of the humor collection; the order never depends on the store. Each
    block is empty when the collection is not loaded or answers without
    documents. *)
Theorem context_parts_in_fixed_order st q :
  no_query_raises st q ->
  Rag.context_parts st q =
    block st "corpus" q 3 (text "CONVERSATION EXAMPLES FROM SERGIO:")
          (map (slice_to 500))
    ++ block st "personality" q 2 (NL ++ text "PERSONALITY FRAMEWORKS:")
             (map (slice_to 300))
    ++ block st "rhetorical" q 1 (NL ++ text "RHETORICAL DEVICE TO USE:")
             (first_only 200)
    ++ (if humor_gate q
        then block st "humor" q 2 (NL ++ text "HUMOR PATTERNS TO DEPLOY:")
                   (map (slice_to 200))
        else []).
Proof.
  intros Hn. rewrite context_parts_until_raise. cbn [until_raise].
  rewrite (lookup_does_not_raise st q "corpus" 3 true _ Hn)
    by (unfold lookup_table; rewrite !elem_of_cons; tauto).
  rewrite (lookup_does_not_raise st q "personality" 2 true _ Hn)
    by (unfold lookup_table; rewrite !elem_of_cons; tauto).
  rewrite (lookup_does_not_raise st q "rhetorical" 1 true _ Hn)
    by (unfold lookup_table; rewrite !elem_of_cons; tauto).
  rewrite corpus_contribution, personality_contribution,
    rhetorical_contribution, humor_contribution.
  destruct (raises (Rag.humor_lookup st q)); rewrite app_nil_r; reflexivity.
Qed.

Lemma calm_store_never_raises q : no_query_raises calm_store q.
Proof.
  intros key coll n detail H. unfold calm_store in H. cbn in H.
  apply lookup_insert_Some in H. destruct H as [[_ <-]|[_ H]]; [discriminate|].
  apply lookup_insert_Some in H. destruct H as [[_ <-]|[_ H]]; [discriminate|].
  rewrite lookup_empty in H. discriminate.
Qed.

Lemma context_parts_in_fixed_order_witness :
  no_query_raises calm_store (text "tengo mucha ansiedad") /\
  Rag.context_parts calm_store (text "tengo mucha ansiedad") =
    [text "CONVERSATION EXAMPLES FROM SERGIO:"; text "Respira.";
     NL ++ text "PERSONALITY FRAMEWORKS:"; text "Identity=Interaction"].
Proof.
  split; [apply calm_store_never_raises|].
  rewrite (context_parts_in_fixed_order calm_store
             (text "tengo mucha ansiedad") (calm_store_never_raises _)).
  vm_compute. reflexivity.
Defined.

(** ** The keyword test of the humor collection *)

Lemma startswith_spec p s :
  startswith p s = true <-> exists post, s = p ++ post.
Proof.
  revert s. induction p as [|a p IH]; intros s; cbn [startswith].
  - split; [intros _; exists s; reflexivity|reflexivity].
  - destruct s as [|b s].
    + split; [discriminate|intros (post & E); discriminate].
    + rewrite andb_true_iff, N.eqb_eq, IH. split.
      * intros (-> & post & ->). exists post. reflexivity.
      * intros (post & E). injection E as -> ->.
        split; [reflexivity|exists post; reflexivity].
Qed.

Lemma contains_spec kw s :
  contains kw s = true <-> exists pre post, s = pre ++ kw ++ post.
Proof.
  induction s as [|c s IH]; cbn [contains]; rewrite orb_true_iff.
  - rewrite startswith_spec. split.
    + intros [(post & E)|H]; [|discriminate]. exists [], post. exact E.
    + intros (pre & post & E). left. destruct pre as [|? ?]; [|discriminate].
      exists post. exact E.
  - rewrite startswith_spec, IH. split.
    + intros [(post & E)|(pre & post & E)].
      * exists [], post. exact E.
      * exists (c :: pre), post. cbn. f_equal. exact E.
    + intros ([|c' pre] & post & E).
      * left. exists post. exact E.
      * right. injection E as -> ->. exists pre, post. reflexivity.
Qed.

Lemma lower_idempotent s : lower (lower s) = lower s.
Proof.
  unfold lower. rewrite map_map. apply map_ext. intros c.
  destruct ((65 <=? c) && (c <=? 90))%N eqn:E; [|rewrite E; reflexivity].
  apply andb_true_iff in E. destruct E as [E1 E2].
  apply N.leb_le in E1. apply N.leb_le in E2.
  replace ((65 <=? c + 32) && (c + 32 <=? 90))%N with false; [reflexivity|].
  symmetry. apply andb_false_iff. right. apply N.leb_gt. lia.
Qed.

Lemma humor_gate_spec q :
  humor_gate q = true <->
  exists kw pre post,
    kw ∈ Rag.humor_keywords /\ lower q = pre ++ kw ++ post.
Proof.
  unfold humor_gate. rewrite existsb_exists. split.
  - intros (kw & Hin & Hc). apply contains_spec in Hc.
    destruct Hc as (pre & post & E).
    exists kw, pre, post. split; [apply list_elem_of_In, Hin|exact E].
  - intros (kw & pre & post & Hin & E). exists kw.
    split; [apply list_elem_of_In, Hin|].
    apply contains_spec. exists pre, post. exact E.
Qed.

(** X8: the humor lookup is passed over, leaving the parts as they are
    whatever the store holds, exactly when the query, with its ASCII capitals
    turned to small letters, has none of the seven keywords as a contiguous
    run; so two queries that differ only in the case of their letters are
    treated alike. When a keyword is there and the humor collection is
    loaded, the collection is asked for two results with the query as it was
    sent: the lookup raises what the query raises, and otherwise adds the
    header and the documents cut at 200 characters. *)
Theorem humor_needs_a_keyword st q :
  let has_keyword := fun query : str =>
    exists kw pre post,
      kw ∈ [text "absurd"; text "ridicul"; text "spirit"; text "vibra";
            text "energ"; text "manifest"; text "univers"] /\
      lower query = pre ++ kw ++ post in
  let passed_over := fun query : str =>
    forall st' parts, Rag.humor_lookup st' query parts = (parts, Rag.Ok tt) in
  (passed_over q <-> ~ has_keyword q) /\
  (forall q', lower q' = lower q -> (passed_over q' <-> passed_over q)) /\
  (has_keyword q ->
   forall coll,
     Rag.chroma_collections st !! "humor" = Some coll ->
     Rag.humor_lookup st q [] =
     match Rag.query coll q 2 with
     | Rag.QueryRaises detail => ([], Rag.Raise detail)
     | Rag.QueryReturns r =>
         if Rag.has_documents r
         then ((10%N :: text "HUMOR PATTERNS TO DEPLOY:")
                 :: map (take 200) (Rag.documents0 r), Rag.Ok tt)
         else ([], Rag.Ok tt)
     end).
Proof.
  cbv zeta.
  assert (forall query,
             (forall st' parts,
                 Rag.humor_lookup st' query parts = (parts, Rag.Ok tt)) <->
             humor_gate query = false) as Skip.
  { intros query. split.
    - intros H. destruct (humor_gate query) eqn:G; [|reflexivity].
      specialize (H {| Rag.chroma_client := true;
                       Rag.chroma_collections :=
                         {[ "humor"%string := raising [] ]} |} []).
      rewrite humor_lookup_block, G in H. unfold labelled_block in H.
      cbn [Rag.chroma_collections] in H. rewrite lookup_singleton_eq in H.
      discriminate.
    - intros G st' parts. rewrite humor_lookup_block, G. reflexivity. }
  split; [|split].
  - rewrite Skip. pose proof (humor_gate_spec q) as S.
    unfold Rag.humor_keywords in S.
    destruct (humor_gate q); split.
    + discriminate.
    + intros N. destruct N. apply S. reflexivity.
    + intros _ K. apply S in K. discriminate.
    + reflexivity.
  - intros q' E. rewrite !Skip. unfold humor_gate. rewrite E. reflexivity.
  - intros K coll L. apply (humor_gate_spec q) in K.
    rewrite humor_lookup_block, K. unfold labelled_block. rewrite L.
    destruct (Rag.query coll q 2) as [r|detail]; [|reflexivity].
    destruct (Rag.has_documents r); reflexivity.
Qed.

Lemma humor_needs_a_keyword_witness :
  let st :=
    {| Rag.chroma_client := true;
       Rag.chroma_collections :=
         <[ "humor" := returning [text "Una aspiradora."] ]> ∅ |} in
  let q := text "Es ABSURDO, no?" in
  Rag.chroma_collections st !! "humor" =
    Some (returning [text "Una aspiradora."]) /\
  Rag.humor_lookup st q [] =
    ([10%N :: text "HUMOR PATTERNS TO DEPLOY:"; text "Una aspiradora."],
     Rag.Ok tt).
Proof.
  split; [reflexivity|].
  destruct (humor_needs_a_keyword
              {| Rag.chroma_client := true;
                 Rag.chroma_collections :=
                   <[ "humor" := returning [text "Una aspiradora."] ]> ∅ |}
              (text "Es ABSURDO, no?")) as (_ & _ & H).
  rewrite (H (ex_intro _ (text "absurd")
                (ex_intro _ (text "es ")
                   (ex_intro _ (text "o, no?")
                      (conj (list_elem_of_here _ _) eq_refl))))
             _ eq_refl).
  reflexivity.
Defined.

(** ** Headers and fragments *)

Lemma has_documents_nonempty r :
  Rag.has_documents r = true -> Rag.documents0 r <> [].
Proof.
  unfold Rag.has_documents, Rag.documents0.
  destruct (Rag.documents r) as [[|[|doc first] docs]|]; cbn;
    discriminate.
Qed.

Lemma block_shape st key q n hdr frags :
  block st key q n hdr frags = [] \/
  exists coll r,
    Rag.chroma_collections st !! key = Some coll /\
    Rag.query coll q n = Rag.QueryReturns r /\
    Rag.documents0 r <> [] /\
    block st key q n hdr frags = hdr :: frags (Rag.documents0 r).
Proof.
  unfold block.
  destruct (Rag.chroma_collections st !! key) as [coll|]; [|left; reflexivity].
  destruct (Rag.query coll q n) as [r|detail] eqn:E; [|left; reflexivity].
  destruct (Rag.has_documents r) eqn:H; [|left; reflexivity].
  right. exists coll, r. split; [reflexivity|]. split; [exact E|].
  split; [apply has_documents_nonempty, H|reflexivity].
Qed.

Lemma first_only_take cap docs :
  first_only cap docs = take 1 (map (slice_to cap) docs).
Proof. destruct docs; reflexivity. Qed.

Lemma lookup_shape st q key n gate step :
  (key, n, gate, step) ∈ lookup_table st q ->
  contribution step = [] \/
  exists hdr cap coll r,
    hdr ∈ headers /\
    (key, n, cap) ∈ truncation_caps /\
    Rag.chroma_collections st !! key = Some coll /\
    Rag.query coll q n = Rag.QueryReturns r /\
    Rag.documents0 r <> [] /\
    contribution step = hdr :: fragments_of key cap (Rag.documents0 r).
Proof.
  unfold lookup_table. rewrite !elem_of_cons, elem_of_nil.
  intros [H|[H|[H|[H|[]]]]]; injection H as -> -> -> ->.
  - rewrite corpus_contribution.
    destruct (block_shape st "corpus" q 3
                (text "CONVERSATION EXAMPLES FROM SERGIO:")
                (map (slice_to 500)))
      as [E|(coll & r & Hl & Hq & Hd & E)]; [left; exact E|right].
    exists (text "CONVERSATION EXAMPLES FROM SERGIO:"), 500%nat, coll, r.
    repeat split; try assumption;
      unfold headers, truncation_caps; rewrite !elem_of_cons; tauto.
  - rewrite personality_contribution.
    destruct (block_shape st "personality" q 2
                (NL ++ text "PERSONALITY FRAMEWORKS:") (map (slice_to 300)))
      as [E|(coll & r & Hl & Hq & Hd & E)]; [left; exact E|right].
    exists (NL ++ text "PERSONALITY FRAMEWORKS:"), 300%nat, coll, r.
    repeat split; try assumption;
      unfold headers, truncation_caps; rewrite !elem_of_cons; tauto.
  - rewrite rhetorical_contribution.
    destruct (block_shape st "rhetorical" q 1
                (NL ++ text "RHETORICAL DEVICE TO USE:") (first_only 200))
      as [E|(coll & r & Hl & Hq & Hd & E)]; [left; exact E|right].
    exists (NL ++ text "RHETORICAL DEVICE TO USE:"), 200%nat, coll, r.
    rewrite first_only_take in E.
    repeat split; try assumption;
      unfold headers, truncation_caps; rewrite !elem_of_cons; tauto.
  - rewrite humor_contribution. destruct (humor_gate q); [|left; reflexivity].
    destruct (block_shape st "humor" q 2
                (NL ++ text "HUMOR PATTERNS TO DEPLOY:") (map (slice_to 200)))
      as [E|(coll & r & Hl & Hq & Hd & E)]; [left; exact E|right].
    exists (NL ++ text "HUMOR PATTERNS TO DEPLOY:"), 200%nat, coll, r.
    repeat split; try assumption;
      unfold headers, truncation_caps; rewrite !elem_of_cons; tauto.
Qed.

Lemma fragments_of_nonempty key cap docs :
  docs <> [] -> fragments_of key cap docs <> [].
Proof.
  unfold fragments_of. destruct docs as [|doc docs]; [congruence|].
  intros _. case_decide; discriminate.
Qed.

(** X9: what a lookup adds to the context is nothing, or the header of its
    collection followed by at least one fragment: a header never stands
    alone. The corpus, personality and humor lookups add one fragment for
    every document the collection returned, however many were asked for; the
    rhetorical lookup adds a fragment for the first document only. *)
Theorem header_is_followed_by_fragments st q key n gate step :
  (key, n, gate, step) ∈ lookup_table st q ->
  contribution step = [] \/
  exists hdr cap coll r,
    hdr ∈ headers /\
    (key, n, cap) ∈ truncation_caps /\
    Rag.chroma_collections st !! key = Some coll /\
    Rag.query coll q n = Rag.QueryReturns r /\
    contribution step = hdr :: fragments_of key cap (Rag.documents0 r) /\
    fragments_of key cap (Rag.documents0 r) <> [] /\
    (key <> "rhetorical"%string ->
     length (fragments_of key cap (Rag.documents0 r)) =
       length (Rag.documents0 r)) /\
    (key = "rhetorical"%string ->
     length (fragments_of key cap (Rag.documents0 r)) = 1%nat).
Proof.
  intros Hin.
  destruct (lookup_shape _ _ _ _ _ _ Hin)
    as [E|(hdr & cap & coll & r & Hh & Hc & Hl & Hq & Hd & E)];
    [left; exact E|right].
  exists hdr, cap, coll, r. repeat split; try assumption.
  - apply fragments_of_nonempty, Hd.
  - intros K. unfold fragments_of. rewrite decide_False by exact K.
    apply length_map.
  - intros K. unfold fragments_of. rewrite decide_True by exact K.
    destruct (Rag.documents0 r); [congruence|reflexivity].
Qed.

Lemma header_is_followed_by_fragments_witness :
  let st := long_document_store in
  let q := text "hola" in
  ("corpus"%string, 3%nat, true, Rag.corpus_lookup st q) ∈ lookup_table st q /\
  (contribution (Rag.corpus_lookup st q) = [] \/
   exists hdr cap coll r,
     hdr ∈ headers /\
     ("corpus"%string, 3%nat, cap) ∈ truncation_caps /\
     Rag.chroma_collections st !! "corpus" = Some coll /\
     Rag.query coll q 3 = Rag.QueryReturns r /\
     contribution (Rag.corpus_lookup st q) =
       hdr :: fragments_of "corpus" cap (Rag.documents0 r) /\
     fragments_of "corpus" cap (Rag.documents0 r) <> [] /\
     ("corpus"%string <> "rhetorical"%string ->
      length (fragments_of "corpus" cap (Rag.documents0 r)) =
        length (Rag.documents0 r)) /\
     ("corpus"%string = "rhetorical"%string ->
      length (fragments_of "corpus" cap (Rag.documents0 r)) = 1%nat)).
Proof.
  assert (("corpus"%string, 3%nat, true,
           Rag.corpus_lookup long_document_store (text "hola"))
            ∈ lookup_table long_document_store (text "hola")) as H
    by apply list_elem_of_here.
  split; [exact H|].
  exact (header_is_followed_by_fragments _ _ _ _ _ _ H).
Defined.

(** ** When the context block is the sentinel *)

Lemma until_raise_head steps :
  (forall step, step ∈ steps ->
                contribution step = [] \/
                exists hdr rest, hdr ∈ headers /\ contribution step = hdr :: rest) ->
  until_raise steps = [] \/
  exists hdr rest, hdr ∈ headers /\ until_raise steps = hdr :: rest.
Proof.
  induction steps as [|step steps IH]; intros H; [left; reflexivity|].
  cbn [until_raise].
  destruct (H step (list_elem_of_here _ _)) as [E|(hdr & rest & Hh & E)].
  - rewrite E. cbn [app].
    destruct (raises step); [left; reflexivity|].
    apply IH. intros step' Hin. apply H, list_elem_of_further, Hin.
  - right. rewrite E. exists hdr. eexists. split; [exact Hh|reflexivity].
Qed.

Lemma context_parts_head st q :
  Rag.context_parts st q = [] \/
  exists hdr rest, hdr ∈ headers /\ Rag.context_parts st q = hdr :: rest.
Proof.
  rewrite context_parts_until_raise. apply until_raise_head.
  intros step Hin.
  assert (exists key n gate, (key, n, gate, step) ∈ lookup_table st q)
    as (key & n & gate & Ht).
  { unfold lookup_table. rewrite !elem_of_cons, elem_of_nil in Hin.
    destruct Hin as [->|[->|[->|[->|[]]]]]; eexists _, _, _;
      rewrite !elem_of_cons; eauto 6. }
  destruct (lookup_shape _ _ _ _ _ _ Ht)
    as [E|(hdr & cap & coll & r & Hh & _ & _ & _ & _ & E)];
    [left; exact E|right].
  exists hdr. eexists. split; [exact Hh|exact E].
Qed.

Lemma header_is_not_the_sentinel hdr rest :
  hdr ∈ headers -> hdr ++ rest <> Rag.NO_CONTEXT.
Proof.
  unfold headers. rewrite !elem_of_cons, elem_of_nil.
  intros [->|[->|[->|[->|[]]]]] E;
    apply (f_equal (take 1)) in E; vm_compute in E; discriminate.
Qed.

Lemma header_is_not_empty hdr rest : hdr ∈ headers -> hdr ++ rest <> [].
Proof.
  unfold headers. rewrite !elem_of_cons, elem_of_nil.
  intros [->|[->|[->|[->|[]]]]] E;
    apply (f_equal (take 1)) in E; vm_compute in E; discriminate.
Qed.

(** X10: the context block is the sentinel exactly when there is no client,
    no query, or no part was retrieved. Otherwise it is the parts joined by
    single newlines, and it begins with one of the four headers. *)
Theorem context_block_is_sentinel_or_joined_parts st messages :
  let q := Rag.user_message messages in
  (Rag.context_block st messages = text "No additional context retrieved."
   <-> Rag.chroma_client st = false \/ q = [] \/ Rag.context_parts st q = [])
  /\
  (Rag.chroma_client st = true -> q <> [] -> Rag.context_parts st q <> [] ->
   Rag.context_block st messages = join NL (Rag.context_parts st q) /\
   exists hdr rest,
     hdr ∈ headers /\ Rag.context_block st messages = hdr ++ rest).
Proof.
  cbv zeta.
  assert (Rag.chroma_client st = true -> Rag.user_message messages <> [] ->
          Rag.context_parts st (Rag.user_message messages) <> [] ->
          Rag.context_block st messages =
            join NL (Rag.context_parts st (Rag.user_message messages)) /\
          exists hdr rest,
            hdr ∈ headers /\ Rag.context_block st messages = hdr ++ rest)
    as Joined.
  { intros Hc Hq Hp.
    destruct (context_parts_head st (Rag.user_message messages))
      as [E|(hdr & rest & Hh & E)]; [congruence|].
    assert (Rag.personality_context st messages =
            join NL (Rag.context_parts st (Rag.user_message messages))) as P.
    { unfold Rag.personality_context.
      destruct (Rag.user_message messages) eqn:Q; [congruence|].
      cbn [truthy]. rewrite retrieve_context_join, Hc. reflexivity. }
    assert (join NL (Rag.context_parts st (Rag.user_message messages)) =
            hdr ++ concat (map (fun seg => NL ++ seg) rest)) as J
      by (rewrite E; apply join_cons).
    assert (Rag.context_block st messages =
            join NL (Rag.context_parts st (Rag.user_message messages))) as B.
    { unfold Rag.context_block. rewrite P, J.
      destruct (hdr ++ _) eqn:D; [|reflexivity].
      destruct (header_is_not_empty _ _ Hh D). }
    split; [exact B|]. exists hdr. eexists. split; [exact Hh|].
    rewrite B. exact J. }
  split; [|exact Joined]. split.
  - intros S.
    destruct (Rag.chroma_client st) eqn:Hc; [|left; reflexivity].
    destruct (Rag.user_message messages) as [|c um] eqn:Q;
      [right; left; reflexivity|].
    destruct (Rag.context_parts st (c :: um)) as [|p ps] eqn:P;
      [right; right; reflexivity|].
    destruct Joined as (_ & hdr & rest & Hh & E);
      [reflexivity|discriminate|discriminate|].
    rewrite E in S. destruct (header_is_not_the_sentinel _ _ Hh S).
  - intros [H|[H|H]].
    + apply context_block_without_parts. left. exact H.
    + apply context_block_without_query, H.
    + apply context_block_without_parts. right. exact H.
Qed.

Lemma context_block_is_sentinel_or_joined_parts_witness :
  let messages := [user_says (text "tengo mucha ansiedad")] in
  Rag.chroma_client calm_store = true /\
  Rag.user_message messages <> [] /\
  Rag.context_parts calm_store (Rag.user_message messages) <> [] /\
  Rag.context_block calm_store messages =
    join NL (Rag.context_parts calm_store (Rag.user_message messages)).
Proof.
  split; [reflexivity|]. split; [discriminate|]. split; [discriminate|].
  apply (context_block_is_sentinel_or_joined_parts calm_store
           [user_says (text "tengo mucha ansiedad")]);
    [reflexivity|discriminate|discriminate].
Defined.

(** ** Start-up *)

Lemma load_collections_lookup client key name :
  (key, name) ∈ RagStartup.COLLECTIONS ->
  RagStartup.load_collections client !! key =
  RagStartup.get_collection client name.
Proof.
  unfold RagStartup.COLLECTIONS. rewrite !elem_of_cons, elem_of_nil.
  unfold RagStartup.load_collections, RagStartup.COLLECTIONS.
  cbn [fold_left].
  intros [E|[E|[E|[E|[]]]]]; injection E as -> ->;
    destruct (RagStartup.get_collection client (text "sergio_personality"));
    destruct (RagStartup.get_collection client (text "sergio_rhetorical"));
    destruct (RagStartup.get_collection client (text "sergio_humor"));
    destruct (RagStartup.get_collection client (text "sergio_corpus"));
    simplify_map_eq; reflexivity.
Qed.

Lemma load_collections_other client key :
  key ∉ (RagStartup.COLLECTIONS).*1 ->
  RagStartup.load_collections client !! key = None.
Proof.
  unfold RagStartup.load_collections, RagStartup.COLLECTIONS.
  cbn [fold_left fmap list_fmap fst].
  rewrite !not_elem_of_cons. intros (H1 & H2 & H3 & H4 & _).
  destruct (RagStartup.get_collection client (text "sergio_personality"));
    destruct (RagStartup.get_collection client (text "sergio_rhetorical"));
    destruct (RagStartup.get_collection client (text "sergio_humor"));
    destruct (RagStartup.get_collection client (text "sergio_corpus"));
    simplify_map_eq; reflexivity.
Qed.

(** X11: when the client opens, each of the four collections is loaded on
    its own: the entry under a key is the collection that [get_collection]
    returns for its name, and is absent when that call raises, whatever
    happens to the other three. No other key is ever present. *)
Theorem startup_loads_each_collection_on_its_own db client :
  RagStartup.CHROMADB_AVAILABLE db = true ->
  RagStartup.PersistentClient db RagStartup.CHROMADB_PATH = Some client ->
  Rag.chroma_client (RagStartup.startup db) = true /\
  (forall key name,
      (key, name) ∈ RagStartup.COLLECTIONS ->
      Rag.chroma_collections (RagStartup.startup db) !! key =
      RagStartup.get_collection client name) /\
  (forall key,
      key ∉ (RagStartup.COLLECTIONS).*1 ->
      Rag.chroma_collections (RagStartup.startup db) !! key = None).
Proof.
  intros Ha Hc. unfold RagStartup.startup. rewrite Ha, Hc.
  cbn [Rag.chroma_client Rag.chroma_collections].
  split; [reflexivity|].
  split; [apply load_collections_lookup|apply load_collections_other].
Qed.

Lemma startup_loads_each_collection_on_its_own_witness :
  let st := RagStartup.startup chromadb_without_humor in
  Rag.chroma_collections st !! "humor" = None /\
  Rag.chroma_collections st !! "corpus" =
    Some (returning [text "sergio_corpus"]).
Proof.
  destruct (startup_loads_each_collection_on_its_own chromadb_without_humor
              _ eq_refl eq_refl) as (_ & H & _).
  split.
  - rewrite (H "humor"%string (text "sergio_humor")); [reflexivity|].
    unfold RagStartup.COLLECTIONS. rewrite !elem_of_cons. tauto.
  - rewrite (H "corpus"%string (text "sergio_corpus")); [reflexivity|].
    unfold RagStartup.COLLECTIONS. rewrite !elem_of_cons. tauto.
Defined.

Lemma startup_client_implies_collections db :
  Rag.chroma_client (RagStartup.startup db) = false ->
  Rag.chroma_collections (RagStartup.startup db) = ∅.
Proof.
  unfold RagStartup.startup.
  destruct (RagStartup.CHROMADB_AVAILABLE db); [|reflexivity].
  destruct (RagStartup.PersistentClient db _); [discriminate|reflexivity].
Qed.

Lemma nothing_loaded_empty db :
  nothing_loaded db -> Rag.chroma_collections (RagStartup.startup db) = ∅.
Proof.
  unfold RagStartup.startup. intros [H|[H|(client & H & Hn)]]; rewrite ?H.
  - reflexivity.
  - destruct (RagStartup.CHROMADB_AVAILABLE db); reflexivity.
  - destruct (RagStartup.CHROMADB_AVAILABLE db); [|reflexivity].
    cbn [Rag.chroma_collections].
    unfold RagStartup.load_collections, RagStartup.COLLECTIONS.
    cbn [fold_left].
    rewrite (Hn "personality"%string (text "sergio_personality")),
      (Hn "rhetorical"%string (text "sergio_rhetorical")),
      (Hn "humor"%string (text "sergio_humor")),
      (Hn "corpus"%string (text "sergio_corpus"));
      [reflexivity|..];
      unfold RagStartup.COLLECTIONS; rewrite !elem_of_cons; tauto.
Qed.

(** X12: a server that starts without [chromadb], without a client, or with
    a client but none of the four collections, holds no collection; then
    every retrieval gives the empty string and every request gets the
    sentinel as its context block. A server without a client never holds a
    collection. *)
Theorem server_without_collections_uses_the_sentinel db :
  (Rag.chroma_client (RagStartup.startup db) = false ->
   Rag.chroma_collections (RagStartup.startup db) = ∅) /\
  (nothing_loaded db ->
   Rag.chroma_collections (RagStartup.startup db) = ∅ /\
   (forall q, Rag.retrieve_context (RagStartup.startup db) q = []) /\
   (forall messages,
       Rag.context_block (RagStartup.startup db) messages =
       text "No additional context retrieved.")).
Proof.
  split; [apply startup_client_implies_collections|].
  intros H. pose proof (nothing_loaded_empty db H) as E.
  assert (forall q, Rag.context_parts (RagStartup.startup db) q = []) as P
    by (intros q; apply context_parts_nothing,
          no_collections_returns_nothing, E).
  split; [exact E|]. split.
  - intros q. rewrite retrieve_context_join, P.
    destruct (Rag.chroma_client _); reflexivity.
  - intros messages. apply context_block_without_parts. right. apply P.
Qed.

Lemma server_without_collections_uses_the_sentinel_witness :
  nothing_loaded chromadb_missing /\
  Rag.context_block (RagStartup.startup chromadb_missing)
    [user_says (text "tengo mucha ansiedad")] =
    text "No additional context retrieved.".
Proof.
  assert (nothing_loaded chromadb_missing) as H by (left; reflexivity).
  split; [exact H|].
  apply (server_without_collections_uses_the_sentinel chromadb_missing), H.
Defined.

(** ** The health endpoint *)

Lemma subscription_type_raises j :
  subscription_type (Some j) = Raised <->
  json_truthy j = true /\
  (is_dict j = false \/
   exists oauth, jfield "claudeAiOauth" j = Some oauth /\ is_dict oauth = false).
Proof.
  unfold subscription_type.
  destruct (json_truthy j) eqn:T;
    [|split; [discriminate|intros [? _]; discriminate]].
  destruct j as [| | | | |fields]; cbn [dict_get jfield is_dict];
    try (split; [intros _; split; [reflexivity|left; reflexivity]
                |reflexivity]).
  destruct (assoc "claudeAiOauth" fields) as [oauth|] eqn:A;
    cbn [from_option id].
  - destruct oauth; cbn [dict_get];
      try (split; [intros _; split; [reflexivity|];
                   right; eexists; split; reflexivity
                  |reflexivity]).
    split; [discriminate|].
    intros (_ & [H|(oauth & H1 & H2)]); [discriminate|].
    injection H1 as <-. discriminate.
  - cbn [dict_get]. split; [discriminate|].
    intros (_ & [H|(oauth & H1 & _)]); discriminate.
Qed.

Lemma health_inputs_raise h :
  (load_credentials h = Raised \/
   exists creds,
     load_credentials h = Returned creds /\ subscription_type creds = Raised)
  <-> bad_credentials (credentials_file h).
Proof.
  unfold load_credentials, bad_credentials.
  destruct (credentials_file h) as [| |j].
  - split; [|intros []].
    intros [H|(creds & H1 & H2)]; [discriminate|].
    injection H1 as <-. discriminate.
  - split; [reflexivity|]. intros _. left. reflexivity.
  - rewrite <- subscription_type_raises. split.
    + intros [H|(creds & H1 & H2)]; [discriminate|].
      injection H1 as <-. exact H2.
    + intros H. right. eexists. split; [reflexivity|exact H].
Qed.

(** X13: in both servers the health endpoint fails exactly when the
    credentials file exists and cannot be read, or holds a true value that is
    no object, or holds an object whose [claudeAiOauth] is present and is no
    object (for instance [null]). A missing file, an empty object and a
    missing [claudeAiOauth] are all answered, with the status [healthy] and
    whether the backend executable exists. *)
Theorem health_fails_exactly_on_bad_credentials rt h db count st :
  (PlainHealth.health rt h = ServerError <->
   bad_credentials (credentials_file h)) /\
  (RagHealth.health rt h db count st = ServerError <->
   bad_credentials (credentials_file h)) /\
  (~ bad_credentials (credentials_file h) ->
   exists plain rag,
     PlainHealth.health rt h = JsonBody plain /\
     RagHealth.health rt h db count st = JsonBody rag /\
     jfield "status" plain = Some (JStr (text "healthy")) /\
     jfield "status" rag = Some (JStr (text "healthy")) /\
     jfield "cli_exists" plain = Some (JBool (cli_exists h)) /\
     jfield "cli_exists" rag = Some (JBool (cli_exists h))).
Proof.
  rewrite <- health_inputs_raise.
  unfold PlainHealth.health, RagHealth.health.
  destruct (load_credentials h) as [creds|].
  - destruct (subscription_type creds) as [sub|] eqn:S.
    + split; [|split].
      * split; [discriminate|].
        intros [H|(c & H1 & H2)]; [discriminate|].
        injection H1 as <-. congruence.
      * split; [discriminate|].
        intros [H|(c & H1 & H2)]; [discriminate|].
        injection H1 as <-. congruence.
      * intros _. eexists _, _. repeat split.
    + assert (Returned creds = Raised \/
              exists c : option json,
                Returned creds = Returned c /\
                subscription_type c = Raised) as B
        by (right; exists creds; split; [reflexivity|exact S]).
      split; [split; [intros _; exact B|reflexivity]|].
      split; [split; [intros _; exact B|reflexivity]|].
      intros N. destruct (N B).
  - assert (@Raised (option json) = Raised \/
            exists c : option json,
              Raised = Returned c /\ subscription_type c = Raised) as B
      by (left; reflexivity).
    split; [split; [intros _; exact B|reflexivity]|].
    split; [split; [intros _; exact B|reflexivity]|].
    intros N. destruct (N B).
Qed.

Lemma health_fails_exactly_on_bad_credentials_witness :
  bad_credentials (credentials_file host_with_null_oauth) /\
  PlainHealth.health (echo_runtime []) host_with_null_oauth = ServerError /\
  ~ bad_credentials (credentials_file host_without_credentials) /\
  exists body,
    RagHealth.health (echo_runtime []) host_without_credentials
      chromadb_missing (fun _ => Raised) no_store = JsonBody body.
Proof.
  assert (bad_credentials (credentials_file host_with_null_oauth)) as B.
  { split; [reflexivity|]. right. exists JNone. split; reflexivity. }
  assert (~ bad_credentials (credentials_file host_without_credentials))
    as N by (intros []).
  split; [exact B|]. split.
  - apply (health_fails_exactly_on_bad_credentials (echo_runtime [])
             host_with_null_oauth chromadb_missing (fun _ => Raised)
             no_store), B.
  - split; [exact N|].
    destruct (health_fails_exactly_on_bad_credentials (echo_runtime [])
                host_without_credentials chromadb_missing (fun _ => Raised)
                no_store) as (_ & _ & H).
    destruct (H N) as (plain & rag & _ & Hr & _). exists rag. exact Hr.
Defined.

Lemma subscription_type_reported c :
  match c with
  | NoFile => subscription_type None = Returned JNone
  | Unreadable => True
  | Holds j =>
      (json_truthy j = false -> subscription_type (Some j) = Returned JNone) /\
      (forall fields,
          j = JDict fields -> fields <> [] ->
          assoc "claudeAiOauth" fields = None ->
          subscription_type (Some j) = Returned JNone) /\
      (forall fields entries,
          j = JDict fields ->
          assoc "claudeAiOauth" fields = Some (JDict entries) ->
          subscription_type (Some j) =
          Returned (default JNone (assoc "subscriptionType" entries)))
  end.
Proof.
  destruct c as [| |j]; [reflexivity|exact I|].
  unfold subscription_type. split; [intros ->; reflexivity|]. split.
  - intros fields -> Hne A. destruct fields; [congruence|].
    cbn [json_truthy truthy dict_get]. rewrite A. reflexivity.
  - intros fields entries -> A. destruct fields; [discriminate|].
    cbn [json_truthy truthy dict_get]. rewrite A. reflexivity.
Qed.

Lemma reports_subscription_of h (reported : json -> option json) :
  (forall creds sub,
      load_credentials h = Returned creds ->
      subscription_type creds = Returned sub ->
      reported sub = Some sub) ->
  forall body_sub,
    (forall creds sub,
        load_credentials h = Returned creds ->
        subscription_type creds = Returned sub ->
        body_sub = reported sub) ->
    reports_subscription (credentials_file h) body_sub.
Proof.
  intros Hr body_sub Hb.
  pose proof (subscription_type_reported (credentials_file h)) as S.
  unfold reports_subscription, load_credentials in *.
  destruct (credentials_file h) as [| |j].
  - split; [intros _|split; [|split]]; try (intros; discriminate).
    rewrite (Hb None JNone eq_refl S). apply (Hr None JNone eq_refl S).
  - split; [|split; [|split]]; intros; discriminate.
  - destruct S as (S1 & S2 & S3).
    split; [intros; discriminate|]. split; [|split].
    + intros j' E T. injection E as <-.
      rewrite (Hb _ _ eq_refl (S1 T)). apply (Hr _ _ eq_refl (S1 T)).
    + intros fields E Hne A. injection E as ->.
      rewrite (Hb _ _ eq_refl (S2 _ eq_refl Hne A)).
      apply (Hr _ _ eq_refl (S2 _ eq_refl Hne A)).
    + intros fields entries E A. injection E as ->.
      rewrite (Hb _ _ eq_refl (S3 _ _ eq_refl A)).
      apply (Hr _ _ eq_refl (S3 _ _ eq_refl A)).
Qed.

(** X14: in both servers [subscription_type] of the health answer is null
    when there is no credentials file, when the file holds a false value
    (such as the empty object) and when it holds an object without
    [claudeAiOauth]; when [claudeAiOauth] is an object it is the value of
    its [subscriptionType], or null when that key is missing. *)
Theorem health_reports_the_subscription_type rt h db count st :
  reports_subscription (credentials_file h)
    (jfield "subscription_type" (body_of (PlainHealth.health rt h))) /\
  reports_subscription (credentials_file h)
    (jfield "subscription_type"
       (body_of (RagHealth.health rt h db count st))).
Proof.
  split.
  - apply (reports_subscription_of h (fun sub => Some sub));
      [reflexivity|].
    intros creds sub L S. unfold PlainHealth.health. rewrite L, S.
    reflexivity.
  - apply (reports_subscription_of h (fun sub => Some sub));
      [reflexivity|].
    intros creds sub L S. unfold RagHealth.health. rewrite L, S.
    reflexivity.
Qed.

Lemma health_reports_the_subscription_type_witness :
  jfield "subscription_type"
    (body_of (PlainHealth.health (echo_runtime []) host_with_subscription)) =
    Some (JStr (text "max")) /\
  jfield "subscription_type"
    (body_of (PlainHealth.health (echo_runtime []) host_without_credentials))
    = Some JNone.
Proof.
  split.
  - destruct (health_reports_the_subscription_type (echo_runtime [])
                host_with_subscription chromadb_missing (fun _ => Raised)
                no_store) as ((_ & _ & _ & H) & _).
    apply (H _ _ eq_refl eq_refl).
  - destruct (health_reports_the_subscription_type (echo_runtime [])
                host_without_credentials chromadb_missing (fun _ => Raised)
                no_store) as ((H & _) & _).
    apply H. reflexivity.
Defined.

Lemma assoc_elem_of (l : list (string * json)) k v :
  NoDup l.*1 -> (assoc k l = Some v <-> (k, v) ∈ l).
Proof.
  induction l as [|[k' v'] l IH]; cbn [assoc fmap list_fmap fst].
  - intros _. rewrite elem_of_nil. split; [discriminate|intros []].
  - intros Hn. apply NoDup_cons in Hn. destruct Hn as [Hk Hn].
    rewrite elem_of_cons. destruct (String.eqb_spec k k') as [->|Hne].
    + split; [intros E; injection E as ->; left; reflexivity|].
      intros [E|Hin]; [injection E as ->; reflexivity|].
      destruct Hk. apply list_elem_of_fmap. exists (k', v).
      split; [reflexivity|exact Hin].
    + rewrite (IH Hn). split; [intros H; right; exact H|].
      intros [E|Hin]; [congruence|exact Hin].
Qed.

Lemma assoc_map_to_list (m : gmap string json) k :
  assoc k (map_to_list m) = m !! k.
Proof.
  destruct (m !! k) as [v|] eqn:E.
  - apply assoc_elem_of; [apply NoDup_fst_map_to_list|].
    apply elem_of_map_to_list, E.
  - destruct (assoc k (map_to_list m)) as [v|] eqn:A; [|reflexivity].
    apply assoc_elem_of in A; [|apply NoDup_fst_map_to_list].
    apply elem_of_map_to_list in A. congruence.
Qed.

(** X15: when the health endpoint of the server with retrieval answers, its
    [collections] object has exactly the keys of the loaded collections;
    under each key it holds the count of that collection, and 0 when
    counting raises, so a broken collection never makes the endpoint
    fail. *)
Theorem health_counts_the_loaded_collections rt h db count st body :
  RagHealth.health rt h db count st = JsonBody body ->
  exists collections,
    jfield "collections" body = Some collections /\
    forall key,
      jfield key collections =
      (fun coll =>
         JInt match count coll with
              | Returned n => n
              | Raised => 0
              end) <$> Rag.chroma_collections st !! key.
Proof.
  unfold RagHealth.health.
  destruct (load_credentials h) as [creds|]; [|discriminate].
  destruct (subscription_type creds) as [sub|]; [|discriminate].
  intros E. injection E as <-. eexists. split; [reflexivity|].
  intros key. cbn [jfield]. rewrite assoc_map_to_list.
  unfold RagHealth.collection_counts. rewrite !lookup_fmap.
  destruct (Rag.chroma_collections st !! key); reflexivity.
Qed.

Lemma health_counts_the_loaded_collections_witness :
  let answer :=
    RagHealth.health (echo_runtime []) host_without_credentials
      chromadb_without_humor (fun _ => Raised) broken_corpus_store in
  exists collections,
    jfield "collections" (body_of answer) = Some collections /\
    jfield "corpus" collections = Some (JInt 0) /\
    jfield "humor" collections = None.
Proof.
  destruct (health_counts_the_loaded_collections (echo_runtime [])
              host_without_credentials chromadb_without_humor
              (fun _ => Raised) broken_corpus_store _ eq_refl)
    as (collections & Hc & Hk).
  exists collections. split; [exact Hc|].
  split; [rewrite Hk|rewrite Hk]; reflexivity.
Defined.

(** ** A backend that never ends *)


